(** * TodoApp: a task list kept in one JSON file

    A shallow embedding of [src/todo_app.py]: the [Task] dataclass and the
    [TodoApp] service, every method of which reads the whole storage file,
    works on the decoded list and writes the whole file back.

    Python objects are modelled by the values [json.loads] can produce,
    strings by their sequence of code points, the file and the wall clock by
    an explicit world that every operation threads, and exceptions by an
    outcome type. The [json] module and [datetime.now] belong to the Python
    runtime, not to the program: they are taken through the [Runtime]
    interface together with the part of their contract the program relies
    on. *)

From Stdlib Require Import ZArith NArith Ascii String SpecFloat.
From stdpp Require Import base option list gmap strings pretty.

#[local] Open Scope Z_scope.
#[local] Set Default Proof Using "Type".

(** ** Python values *)

(** A Python [str]: its code points, so that [len] is [length]. *)
Abbreviation str := (list N).

(** A [str] literal of the source, written with ASCII characters. *)
Definition lit (s : string) : str :=
  (λ c, N_of_ascii c) <$> list_ascii_of_string s.
Arguments lit : simpl never.

(** What [json.loads] returns: [None], [bool], [int], [float], [str], [list]
    and [dict] with [str] keys. A [dict] is a finite map: the program only
    tests its keys and looks them up. *)
#[warnings="-register-all"]
Inductive value : Type :=
  | VNone
  | VBool (b : bool)
  | VInt (z : Z)
  | VFloat (f : spec_float)
  | VStr (s : str)
  | VList (l : list value)
  | VDict (d : gmap str value).

(** [bool(v)], the test made by [if v] and [not v]. *)
Definition truthy (v : value) : bool :=
  match v with
  | VNone => false
  | VBool b => b
  | VInt z => negb (z =? 0)
  | VFloat (S754_zero _) => false
  | VFloat _ => true
  | VStr s => negb (bool_decide (s = []))
  | VList l => negb (bool_decide (length l = 0%nat))
  | VDict d => negb (bool_decide (size d = 0%nat))
  end.

(** [isinstance(v, int)]; [bool] is a subclass of [int]. *)
Definition isinstance_int (v : value) : bool :=
  match v with
  | VBool _ | VInt _ => true
  | _ => false
  end.

(** [f == n] for a float [f] and an int [n]: Python compares the two numbers
    exactly. *)
Definition float_eq_int (f : spec_float) (n : Z) : bool :=
  match f with
  | S754_zero _ => n =? 0
  | S754_infinity _ | S754_nan => false
  | S754_finite s m e =>
      let sm := if s then Z.neg m else Z.pos m in
      if 0 <=? e then sm * 2 ^ e =? n else sm =? n * 2 ^ (- e)
  end.

(** [v == n] where [n] is an [int]. *)
Definition eq_int (v : value) (n : Z) : bool :=
  match v with
  | VBool b => Z.b2z b =? n
  | VInt z => z =? n
  | VFloat f => float_eq_int f n
  | _ => false
  end.

(** [v == s] where [s] is a [str]. *)
Definition eq_str (v : value) (s : str) : bool :=
  match v with
  | VStr s' => bool_decide (s' = s)
  | _ => false
  end.

(** [v in (1, 2, 3)]. *)
Definition in_1_2_3 (v : value) : bool :=
  eq_int v 1 || eq_int v 2 || eq_int v 3.

(** [c.isspace()] for one code point, as [str.strip()] with no argument
    uses it. *)
Definition isspace (c : N) : bool :=
  ((9 <=? c) && (c <=? 13) || (28 <=? c) && (c <=? 32)
   || (c =? 133) || (c =? 160) || (c =? 5760)
   || (8192 <=? c) && (c <=? 8202)
   || (c =? 8232) || (c =? 8233) || (c =? 8239) || (c =? 8287)
   || (c =? 12288))%N.

Fixpoint lstrip (s : str) : str :=
  match s with
  | c :: s' => if isspace c then lstrip s' else s
  | [] => []
  end.

(** [s.strip()]. *)
Definition strip (s : str) : str := reverse (lstrip (reverse (lstrip s))).

(** ** Exceptions, the world and the monad of operations *)

Inductive exn : Type :=
  | JSONDecodeError
  | ValueError (msg : string)
  | TypeError
  | IndexError
  | TaskNotFoundError (title : str).

Inductive outcome (A : Type) : Type :=
  | Return (a : A)
  | Raise (e : exn).
Arguments Return {A} a.
Arguments Raise {A} e.

(** The part of the Python runtime the program calls. [json_loads] is [None]
    where [json.loads] raises [json.JSONDecodeError]; [json_dumps] is
    [json.dumps(_, indent=2)]; [brackets] is the text ["[]"];
    [isoformat_now n] is what the [n]-th call of
    [datetime.now().isoformat()] returns. *)
Class Runtime : Type := {
  text : Type;
  json_loads : text → option value;
  json_dumps : value → text;
  brackets : text;
  isoformat_now : nat → str;
  json_loads_dumps : ∀ v, json_loads (json_dumps v) = Some v;
  json_loads_brackets : json_loads brackets = Some (VList []);
}.

Section TodoApp.
Context `{rt : Runtime}.

(** The content of the file at [self.storage] and the number of clock
    readings taken so far. *)
Record world : Type := World { storage : text; clock : nat }.

Definition M (A : Type) : Type := world → outcome A * world.

#[export] Instance M_ret : MRet M := λ A a w, (Return a, w).
#[export] Instance M_bind : MBind M := λ A B k m w,
  match m w with
  | (Return a, w') => k a w'
  | (Raise e, w') => (Raise e, w')
  end.

Definition raise {A} (e : exn) : M A := λ w, (Raise e, w).

(** [try: body / except json.JSONDecodeError: handler]. *)
Definition try_except_JSONDecodeError {A} (body handler : M A) : M A := λ w,
  match body w with
  | (Raise JSONDecodeError, w') => handler w'
  | r => r
  end.

(** [self.storage.read_text()] and [self.storage.write_text(x)]. *)
Definition read_text : M text := λ w, (Return (storage w), w).
Definition write_text (x : text) : M () := λ w,
  (Return (), {| storage := x; clock := clock w |}).

(** [datetime.now().isoformat()]. *)
Definition now_isoformat : M str := λ w,
  (Return (isoformat_now (clock w)),
   {| storage := storage w; clock := S (clock w) |}).

(** [json.loads(x)]. *)
Definition loads (x : text) : M value :=
  match json_loads x with
  | Some v => mret v
  | None => raise JSONDecodeError
  end.

(** [[f(x) for x in l]]. *)
Fixpoint comprehension {A B} (f : A → M B) (l : list A) : M (list B) :=
  match l with
  | [] => mret []
  | x :: l' => y ← f x; ys ← comprehension f l'; mret (y :: ys)
  end.

(** The items a [for] over [v] visits: the elements of a list, the keys of a
    dict (here in the order of the finite map), the characters of a string;
    anything else is not iterable. *)
Definition iter (v : value) : M (list value) :=
  match v with
  | VList l => mret l
  | VDict d => mret ((λ kv, VStr kv.1) <$> map_to_list d)
  | VStr s => mret ((λ c, VStr [c]) <$> s)
  | _ => raise TypeError
  end.

(** ** The Task dataclass *)

Record Task : Type := {
  title : value;
  done : value;
  priority : value;
  created_at : value;
  completed_at : value;
}.

(** [Task.__post_init__]. *)
Definition Task_post_init (self : Task) : M () :=
  if negb (isinstance_int (priority self)) || negb (in_1_2_3 (priority self))
  then raise (ValueError "Priority must be 1, 2, or 3")
  else mret ().

Definition Task_fields : gset str :=
  {[ lit "title"; lit "done"; lit "priority"; lit "created_at";
     lit "completed_at" ]}.

(** The constructor called with the keyword arguments [kw]: the generated
    [__init__] refuses a keyword that is not a field and a call without
    [title], fills the defaults ([created_at] by its factory, which reads the
    clock), then runs [__post_init__]. *)
Definition Task_init (kw : gmap str value) : M Task :=
  if bool_decide (dom kw ⊆ Task_fields) then
    match kw !! lit "title" with
    | None => raise TypeError
    | Some t =>
        c ← match kw !! lit "created_at" with
            | Some c => mret c
            | None => s ← now_isoformat; mret (VStr s)
            end;
        let self := {| title := t;
                       done := default (VBool false) (kw !! lit "done");
                       priority := default (VInt 1) (kw !! lit "priority");
                       created_at := c;
                       completed_at := default VNone (kw !! lit "completed_at") |} in
        Task_post_init self;; mret self
    end
  else raise TypeError.

(** The constructor called on the unpacked [item], as the comprehension of
    [_load] does: what is unpacked into keywords must be a mapping. *)
Definition Task_of_item (item : value) : M Task :=
  match item with
  | VDict kw => Task_init kw
  | _ => raise TypeError
  end.

(** [dataclasses.asdict(t)]. *)
Definition asdict (t : Task) : gmap str value :=
  <[lit "title" := title t]>
  (<[lit "done" := done t]>
  (<[lit "priority" := priority t]>
  (<[lit "created_at" := created_at t]>
  (<[lit "completed_at" := completed_at t]> ∅)))).

(** ** The TodoApp service *)

(** [TodoApp._ensure_storage], on the file as the constructor finds it
    ([None] when it does not exist): the content afterwards. *)
Definition _ensure_storage (file : option text) : text :=
  match file with
  | None => brackets
  | Some x => x
  end.

(** [TodoApp._load]. *)
Definition _load : M (list Task) :=
  try_except_JSONDecodeError
    (x ← read_text;
     data ← loads x;
     items ← iter data;
     comprehension Task_of_item items)
    (mret []).

(** [TodoApp._save]. *)
Definition _save (tasks : list Task) : M () :=
  write_text (json_dumps (VList ((λ t, VDict (asdict t)) <$> tasks))).

(** [TodoApp.add_task]; the default [priority=1] is the caller's
    [add_task title 1]. *)
Definition add_task (title : str) (priority : Z) : M Task :=
  if negb (truthy (VStr title)) then
    raise (ValueError "Task title cannot be empty")
  else if negb (truthy (VStr (strip title))) then
    raise (ValueError "Task title cannot be only whitespace")
  else if (200 <? length title)%nat then
    raise (ValueError "Task title cannot exceed 200 characters")
  else
    tasks ← _load;
    task ← Task_init {[ lit "title" := VStr title;
                        lit "priority" := VInt priority ]};
    let tasks := tasks ++ [task] in
    _save tasks;;
    mret task.

(** The loop of [complete_task]: [tasks] is the list being visited, [i] the
    position of the head of [rest] in it. The task found is updated in
    place, so the list saved holds the updated task at [i]. *)
Fixpoint complete_task_loop (title0 : str) (tasks : list Task) (i : nat)
    (rest : list Task) : M Task :=
  match rest with
  | [] => raise (TaskNotFoundError title0)
  | task :: rest' =>
      if eq_str (title task) title0 then
        if truthy (done task) then
          raise (ValueError "Task is already completed")
        else
          s ← now_isoformat;
          let task := {| title := title task;
                         done := VBool true;
                         priority := priority task;
                         created_at := created_at task;
                         completed_at := VStr s |} in
          _save (<[i := task]> tasks);;
          mret task
      else complete_task_loop title0 tasks (S i) rest'
  end.

(** [TodoApp.complete_task]. *)
Definition complete_task (title0 : str) : M Task :=
  tasks ← _load;
  complete_task_loop title0 tasks 0 tasks.

(** [tasks.pop(i)]: the element and the list without it. *)
Definition pop (tasks : list Task) (i : nat) : M (Task * list Task) :=
  match tasks !! i with
  | Some t => mret (t, delete i tasks)
  | None => raise IndexError
  end.

(** The loop of [delete_task] over [enumerate(tasks)]. *)
Fixpoint delete_task_loop (title0 : str) (tasks : list Task) (i : nat)
    (rest : list Task) : M Task :=
  match rest with
  | [] => raise (TaskNotFoundError title0)
  | task :: rest' =>
      if eq_str (title task) title0 then
        '(deleted_task, tasks) ← pop tasks i;
        _save tasks;;
        mret deleted_task
      else delete_task_loop title0 tasks (S i) rest'
  end.

(** [TodoApp.delete_task]. *)
Definition delete_task (title0 : str) : M Task :=
  tasks ← _load;
  delete_task_loop title0 tasks 0 tasks.

(** The loop of [get_task]. *)
Fixpoint get_task_loop (title0 : str) (rest : list Task) : M Task :=
  match rest with
  | [] => raise (TaskNotFoundError title0)
  | task :: rest' =>
      if eq_str (title task) title0 then mret task
      else get_task_loop title0 rest'
  end.

(** [TodoApp.get_task]. *)
Definition get_task (title0 : str) : M Task :=
  tasks ← _load;
  get_task_loop title0 tasks.

(** [TodoApp.get_all_tasks]. *)
Definition get_all_tasks : M (list Task) := _load.

(** [TodoApp.active_tasks_count]: the sum of the booleans [not t.done].
    ([completed_tasks_count] adds up the [done] fields themselves with the
    builtin [sum]; it is modelled further down, with the arithmetic on floats
    left to the interpreter.) *)
Definition active_tasks_count : M Z :=
  tasks ← _load;
  mret (foldr (λ t n, Z.b2z (negb (truthy (done t))) + n) 0 tasks).

(** [TodoApp.get_tasks_by_priority]. *)
Definition get_tasks_by_priority (priority0 : Z) : M (list Task) :=
  if negb (bool_decide (priority0 ∈ [1; 2; 3])) then
    raise (ValueError "Priority must be 1, 2, or 3")
  else
    tasks ← _load;
    mret (filter (λ t, eq_int (priority t) priority0 = true) tasks).

(** [TodoApp.get_high_priority_tasks]. *)
Definition get_high_priority_tasks : M (list Task) :=
  get_tasks_by_priority 3.

(** ** Notions the properties are stated with *)

(** The file [_save tasks] writes. *)
Definition saved (tasks : list Task) : text :=
  json_dumps (VList ((λ t, VDict (asdict t)) <$> tasks)).

(** A priority [__post_init__] accepts. *)
Definition priority_ok (v : value) : bool := isinstance_int v && in_1_2_3 v.

(** A task the constructor accepts. *)
Definition Task_valid (t : Task) : Prop := priority_ok (priority t) = true.

(** The errors that come out of building the tasks of a stored array: the
    [TypeError] of a bad call of the constructor and the [ValueError] of
    [__post_init__]. *)
Definition construction_error (e : exn) : Prop :=
  e = TypeError ∨ e = ValueError "Priority must be 1, 2, or 3".

(** No task of the list has the title [title0]. *)
Definition absent (title0 : str) (tasks : list Task) : Prop :=
  Forall (λ t, title t ≠ VStr title0) tasks.

(** The task [add_task] builds when the clock reads [s]. *)
Definition new_task (title0 : str) (p : Z) (s : str) : Task :=
  {| title := VStr title0; done := VBool false; priority := VInt p;
     created_at := VStr s; completed_at := VNone |}.

(** The task [complete_task] leaves in place of [t], completed at the
    reading [s] of the clock. *)
Definition completed (t : Task) (s : str) : Task :=
  {| title := title t; done := VBool true; priority := priority t;
     created_at := created_at t; completed_at := VStr s |}.

(** A title [add_task] accepts: not empty, not made of whitespace only, of
    at most 200 characters. *)
Definition valid_title (s : str) : Prop :=
  s ≠ [] ∧ Exists (λ c, isspace c = false) s ∧ (length s ≤ 200)%nat.

(** An entry of the stored array the constructor accepts: an object whose
    keys are field names, with a title, and whose priority (1 when absent)
    passes [__post_init__]. *)
Definition item_ok (item : value) : bool :=
  match item with
  | VDict kw =>
      bool_decide (dom kw ⊆ Task_fields)
      && bool_decide (is_Some (kw !! lit "title"))
      && priority_ok (default (VInt 1) (kw !! lit "priority"))
  | _ => false
  end.

(** The state of a task the data model asks for: completed exactly when
    [done], with one of the three priorities. *)
Definition task_inv (t : Task) : Prop :=
  (completed_at t ≠ VNone ↔ done t = VBool true)
  ∧ ∃ p, priority t = VInt p ∧ p ∈ [1; 2; 3].

(** The worlds the three mutating operations reach from a storage that the
    constructor has just created. *)
Inductive reachable : world → Prop :=
  | reachable_new n :
      reachable (World (_ensure_storage None) n)
  | reachable_add w title0 p :
      reachable w → reachable (add_task title0 p w).2
  | reachable_complete w title0 :
      reachable w → reachable (complete_task title0 w).2
  | reachable_delete w title0 :
      reachable w → reachable (delete_task title0 w).2.

(** A decoded value [_load] makes a list of tasks from: an array of entries
    the constructor accepts, or an empty string or an empty object, over
    which the comprehension has nothing to visit. *)
Definition decodes (data : value) : bool :=
  match data with
  | VList items => forallb item_ok items
  | VStr s => bool_decide (s = [])
  | VDict d => bool_decide (size d = 0%nat)
  | _ => false
  end.

(** The four operations that can fail on their arguments or on a title. *)
Inductive operation : Type :=
  | Add (title0 : str) (p : Z)
  | Complete (title0 : str)
  | Delete (title0 : str)
  | Get (title0 : str).

Definition run (op : operation) : M Task :=
  match op with
  | Add title0 p => add_task title0 p
  | Complete title0 => complete_task title0
  | Delete title0 => delete_task title0
  | Get title0 => get_task title0
  end.

(** What holds of the file in every reachable world: it is the encoding of
    a list of valid tasks, each in the state the data model asks for. *)
Definition stored_inv (x : text) : Prop :=
  ∃ tasks, json_loads x = Some (VList ((λ t, VDict (asdict t)) <$> tasks))
           ∧ Forall Task_valid tasks ∧ Forall task_inv tasks.

(** An error a caller of the service can see. *)
Definition public_error (e : exn) : Prop :=
  (∃ msg, e = ValueError msg) ∨ e = TypeError
  ∨ ∃ title0, e = TaskNotFoundError title0.

#[export] Instance valid_title_dec s : Decision (valid_title s).
Proof. unfold valid_title. apply _. Defined.

End TodoApp.

(** ** Counting the completed tasks *)

(** The builtin [sum] adds the items to 0 one after the other. As long as
    the items are ints (or bools, which are ints) the total is an int; an
    item that is no number makes the addition raise a [TypeError]. Once a
    float comes, the rest is floating-point arithmetic, which is the
    interpreter's: [sum_floats acc f rest] is what [sum] returns when the
    total [acc] meets the float [f] with [rest] still to add. *)
Class Interpreter : Type := sum_floats : Z → spec_float → list value → outcome value.

Section Counting.
Context `{rt : Runtime} `{py : Interpreter}.

(** [sum(items)], from the running total [acc]. *)
Fixpoint builtin_sum (acc : Z) (items : list value) : outcome value :=
  match items with
  | [] => Return (VInt acc)
  | VBool b :: rest => builtin_sum (acc + Z.b2z b) rest
  | VInt z :: rest => builtin_sum (acc + z) rest
  | VFloat f :: rest => sum_floats acc f rest
  | _ :: _ => Raise TypeError
  end.

(** What a computation that touches neither the file nor the clock gives. *)
Definition result {A} (o : outcome A) : M A := λ w, (o, w).

(** [TodoApp.completed_tasks_count]: the sum of the [done] fields as they
    are stored. *)
Definition completed_tasks_count : M value :=
  tasks ← _load;
  result (builtin_sum 0 (done <$> tasks)).

(** [TodoApp.__init__] on the file as it finds it: the world the new
    instance works in, when the clock has been read [n] times. *)
Definition TodoApp_init (file : option text) (n : nat) : world :=
  World (_ensure_storage file) n.

(** ** More notions for the properties *)

(** The number of tasks of a list whose [done] tests false, and the number
    of those whose [done] tests true. *)
Definition n_active (tasks : list Task) : Z :=
  Z.of_nat (length (filter (λ t, truthy (done t) = false) tasks)).
Definition n_done (tasks : list Task) : Z :=
  Z.of_nat (length (filter (λ t, truthy (done t) = true) tasks)).

(** The tasks of a list whose title is not [title0], in their order. *)
Definition others (title0 : str) (tasks : list Task) : list Task :=
  filter (λ t, eq_str (title t) title0 = false) tasks.

(** A task whose [done] is a boolean. *)
Definition done_is_bool (t : Task) : Prop := ∃ b, done t = VBool b.

(** A value the addition of [sum] refuses. *)
Definition not_a_number (v : value) : Prop :=
  match v with
  | VNone | VStr _ | VList _ | VDict _ => True
  | _ => False
  end.

(** A value that is an int for [sum]. *)
Definition is_int (v : value) : Prop :=
  match v with
  | VBool _ | VInt _ => True
  | _ => False
  end.

(** The int a [done] field adds to the sum. *)
Definition int_of (v : value) : Z :=
  match v with
  | VBool b => Z.b2z b
  | VInt z => z
  | _ => 0
  end.

(** A task with the types the dataclass declares: the title and the
    creation time are strings, [done] is a boolean, and the completion time
    is a string or null. *)
Definition well_typed (t : Task) : Prop :=
  (∃ s, title t = VStr s) ∧ done_is_bool t ∧ (∃ s, created_at t = VStr s)
  ∧ (completed_at t = VNone ∨ ∃ s, completed_at t = VStr s).

(** The three operations that write the file. *)
Definition mutation (op : operation) : Prop :=
  match op with
  | Get _ => False
  | _ => True
  end.

End Counting.

(** ** A runtime to run the model on

    A file is either text that is not JSON or the encoding of a value; the
    clock readings are distinct strings. It satisfies the contract of
    [Runtime] and serves to evaluate the operations on concrete worlds. *)
Module Sim.

Inductive file : Type :=
  | Garbled (raw : string)
  | Encoded (v : value).

#[export] Instance runtime : Runtime := {|
  text := file;
  json_loads x := match x with Garbled _ => None | Encoded v => Some v end;
  json_dumps := Encoded;
  brackets := Encoded (VList []);
  isoformat_now n := lit ("2024-01-01T00:00:00." +:+ pretty n);
  json_loads_dumps v := eq_refl;
  json_loads_brackets := eq_refl;
|}.

(** No file below holds a float in a [done] field: the sum of floats is
    never asked for, and this stands in for it. *)
#[export] Instance interpreter : Interpreter := λ acc f rest, Return (VFloat f).

(** A JSON object given by its members. *)
Definition obj (members : list (string * value)) : value :=
  VDict (list_to_map (prod_map lit id <$> members)).

Definition at_start (x : file) : world := World x 0.

(** A stored record with all five keys. *)
Definition record (title0 : string) (done0 : bool) (p : Z)
    (completed0 : value) : value :=
  obj [("title", VStr (lit title0)); ("done", VBool done0);
       ("priority", VInt p); ("created_at", VStr (lit "2024-01-01T00:00:00"));
       ("completed_at", completed0)].

(** The task such a record loads to. *)
Definition stored (title0 : string) (done0 : bool) (p : Z)
    (completed0 : value) : Task :=
  {| title := VStr (lit title0); done := VBool done0; priority := VInt p;
     created_at := VStr (lit "2024-01-01T00:00:00");
     completed_at := completed0 |}.

(** The file the constructor creates. *)
Definition fresh : world := at_start brackets.

(** A file with one task, still to do. *)
Definition one_active : world :=
  at_start (Encoded (VList [record "a" false 2 VNone])).

(** A file with three tasks of priorities 1, 3 and 3. *)
Definition three_tasks : world :=
  at_start (Encoded (VList [record "a" false 1 VNone; record "b" false 3 VNone;
                            record "c" false 3 VNone])).

(** A file edited by hand: valid JSON, with a priority no task can have. *)
Definition bad_priority : world :=
  at_start (Encoded (VList [obj [("title", VStr (lit "x")); ("priority", VInt 5)]])).


(** Valid JSON holding an empty object. *)
Definition empty_object : world := at_start (Encoded (obj [])).

(** Valid JSON holding a record with a title and nothing else. *)
Definition title_only : world :=
  at_start (Encoded (VList [obj [("title", VStr (lit "x"))]])).

(** A file with three tasks, two of them titled "a": the first is active,
    the others are completed. *)
Definition mixed : world :=
  at_start (Encoded (VList
    [record "a" false 1 VNone;
     record "b" true 3 (VStr (lit "2024-01-02T00:00:00"));
     record "a" true 2 (VStr (lit "2024-01-03T00:00:00"))])).

(** Files edited by hand, with a [done] that is the number 5, and one that
    is null. *)
Definition done_five : world :=
  at_start (Encoded (VList [obj [("title", VStr (lit "x")); ("done", VInt 5)]])).
Definition done_null : world :=
  at_start (Encoded (VList [obj [("title", VStr (lit "x")); ("done", VNone)]])).


End Sim.

(** * Properties *)

Section Properties.
Context `{rt : Runtime}.

Implicit Types (w : world) (t : Task) (tasks : list Task) (e : exn).

(** ** Running the monad *)

Lemma bind_run {A B} (m : M A) (k : A → M B) w :
  (m ≫= k) w = match m w with
               | (Return a, w') => k a w'
               | (Raise e, w') => (Raise e, w')
               end.
Proof. reflexivity. Qed.

Lemma bind_return {A B} (m : M A) (k : A → M B) w a w' :
  m w = (Return a, w') → (m ≫= k) w = k a w'.
Proof. intros H. by rewrite bind_run, H. Qed.

Lemma bind_raise {A B} (m : M A) (k : A → M B) w e w' :
  m w = (Raise e, w') → (m ≫= k) w = (Raise e, w').
Proof. intros H. by rewrite bind_run, H. Qed.

(** ** The dataclass: [asdict] and the constructor *)

Lemma asdict_title t : asdict t !! lit "title" = Some (title t).
Proof. reflexivity. Qed.
Lemma asdict_done t : asdict t !! lit "done" = Some (done t).
Proof. reflexivity. Qed.
Lemma asdict_priority t : asdict t !! lit "priority" = Some (priority t).
Proof. reflexivity. Qed.
Lemma asdict_created_at t : asdict t !! lit "created_at" = Some (created_at t).
Proof. reflexivity. Qed.
Lemma asdict_completed_at t :
  asdict t !! lit "completed_at" = Some (completed_at t).
Proof. reflexivity. Qed.
Lemma asdict_dom t : bool_decide (dom (asdict t) ⊆ Task_fields) = true.
Proof. vm_compute. reflexivity. Qed.

Lemma Task_post_init_run t w :
  Task_post_init t w =
  if priority_ok (priority t) then (Return (), w)
  else (Raise (ValueError "Priority must be 1, 2, or 3"), w).
Proof.
  unfold Task_post_init, priority_ok.
  by destruct (isinstance_int _), (in_1_2_3 _).
Qed.

(** Rebuilding a task from its own fields gives the task back, with no
    clock reading, provided its priority is one [__post_init__] accepts. *)
Lemma Task_init_asdict t w :
  Task_valid t → Task_init (asdict t) w = (Return t, w).
Proof.
  intros Hp. unfold Task_init.
  rewrite asdict_dom, asdict_title, asdict_created_at, asdict_done,
    asdict_priority, asdict_completed_at. cbn [from_option id].
  rewrite bind_run. cbn -[Task_post_init].
  rewrite bind_run, Task_post_init_run. cbn [priority]. rewrite Hp.
  by destruct t.
Qed.

(** What the constructor does on an entry of the stored array: it builds a
    task exactly for the entries [item_ok] accepts, and otherwise raises a
    [TypeError] or the [ValueError] of [__post_init__]; the file is never
    touched. *)
Lemma Task_of_item_spec item w :
  match Task_of_item item w with
  | (Return t, w') =>
      item_ok item = true ∧ storage w' = storage w ∧ Task_valid t
  | (Raise e, w') =>
      item_ok item = false ∧ storage w' = storage w ∧ construction_error e
  end.
Proof.
  unfold construction_error.
  destruct item as [| | | | |l|kw]; cbn; try by eauto.
  unfold Task_init. case_bool_decide as Hdom; cbn; [|by eauto].
  destruct (kw !! lit "title") as [ti|] eqn:Hti; cbn.
  2:{ by eauto. }
  destruct (kw !! lit "created_at") as [c|];
    repeat (rewrite bind_run; cbn -[Task_post_init]);
    rewrite Task_post_init_run; cbn [priority];
    destruct (priority_ok _) eqn:Hp; cbn; eauto.
Qed.

Lemma comprehension_spec items w :
  match comprehension Task_of_item items w with
  | (Return tasks, w') =>
      forallb item_ok items = true ∧ storage w' = storage w
      ∧ Forall Task_valid tasks
  | (Raise e, w') =>
      forallb item_ok items = false ∧ storage w' = storage w
      ∧ construction_error e
  end.
Proof.
  revert w. induction items as [|item items IH]; intros w; cbn.
  { by repeat split. }
  rewrite bind_run. pose proof (Task_of_item_spec item w) as Hi.
  destruct (Task_of_item item w) as [[t|e] w1].
  - destruct Hi as (-> & Hs1 & Ht). rewrite bind_run.
    specialize (IH w1). destruct (comprehension _ items w1) as [[ts|e] w2];
      cbn; destruct IH as (-> & Hs2 & IH); repeat split;
      try congruence; by try constructor.
  - destruct Hi as (-> & Hs1 & He). by repeat split.
Qed.

Lemma comprehension_asdict tasks w :
  Forall Task_valid tasks →
  comprehension Task_of_item ((λ t, VDict (asdict t)) <$> tasks) w
  = (Return tasks, w).
Proof.
  induction 1 as [|t tasks Ht _ IH]; [done|]. cbn [fmap list_fmap comprehension].
  rewrite bind_run. cbn [Task_of_item]. rewrite Task_init_asdict by done.
  by rewrite bind_run, IH.
Qed.

(** ** Loading and saving *)

(** Decoding the value [json.loads] returned: iterate over it and build a
    task from each item. *)
Lemma decode_spec data w :
  match (iter data ≫= comprehension Task_of_item) w with
  | (Return tasks, w') => storage w' = storage w ∧ Forall Task_valid tasks
  | (Raise e, w') => storage w' = storage w ∧ construction_error e
  end.
Proof.
  rewrite bind_run.
  destruct data as [| | | | s | l | d]; cbn; try (split; [done | by left]).
  - pose proof (comprehension_spec ((λ c, VStr [c]) <$> s) w) as H.
    destruct (comprehension _ _ w) as [[ts|e] w']; tauto.
  - pose proof (comprehension_spec l w) as H.
    destruct (comprehension _ _ w) as [[ts|e] w']; tauto.
  - pose proof (comprehension_spec ((λ kv, VStr kv.1) <$> map_to_list d) w) as H.
    destruct (comprehension _ _ w) as [[ts|e] w']; tauto.
Qed.

(** [_load] without its exception handler: the handler only ever fires on
    the error of [json.loads] itself. *)
Lemma _load_run w :
  _load w = match json_loads (storage w) with
            | None => (Return [], w)
            | Some data => (iter data ≫= comprehension Task_of_item) w
            end.
Proof.
  unfold _load, try_except_JSONDecodeError. rewrite bind_run. cbn [read_text].
  rewrite bind_run. unfold loads. destruct (json_loads (storage w)) as [data|];
    [|done]. cbn [mret M_ret].
  pose proof (decode_spec data w) as H.
  destruct ((iter data ≫= comprehension Task_of_item) w) as [[ts|e] w'];
    [done|]. by destruct H as (_ & [-> | ->]).
Qed.

(** Whatever the file holds, [_load] leaves it as it is; the tasks it
    returns are valid, and the only errors it raises are those of the
    constructor. *)
Lemma _load_spec w :
  match _load w with
  | (Return tasks, w') => storage w' = storage w ∧ Forall Task_valid tasks
  | (Raise e, w') => storage w' = storage w ∧ construction_error e
  end.
Proof.
  rewrite _load_run. destruct (json_loads (storage w)) as [data|]; [|done].
  apply decode_spec.
Qed.

Lemma _load_storage {tasks w w'} :
  _load w = (Return tasks, w') → storage w' = storage w.
Proof. intros H. pose proof (_load_spec w) as Hs. rewrite H in Hs. tauto. Qed.

Lemma _load_valid {tasks w w'} :
  _load w = (Return tasks, w') → Forall Task_valid tasks.
Proof. intros H. pose proof (_load_spec w) as Hs. rewrite H in Hs. tauto. Qed.

Lemma _save_run tasks w :
  _save tasks w = (Return (), World (saved tasks) (clock w)).
Proof. reflexivity. Qed.

(** Loading a file that [_save] wrote. *)
Lemma _load_saved tasks n :
  Forall Task_valid tasks →
  _load (World (saved tasks) n) = (Return tasks, World (saved tasks) n).
Proof.
  intros Hv. rewrite _load_run. cbn [storage]. unfold saved at 1.
  rewrite json_loads_dumps, bind_run. cbn [iter].
  by apply comprehension_asdict.
Qed.

(** ** The scans by title *)

Lemma eq_str_true v s : eq_str v s = true ↔ v = VStr s.
Proof.
  destruct v; cbn; try (split; congruence).
  rewrite bool_decide_eq_true. split; congruence.
Qed.

Lemma eq_str_false v s : eq_str v s = false ↔ v ≠ VStr s.
Proof. rewrite <-eq_str_true. by destruct (eq_str v s). Qed.

(** A task with the title is in the stored list or none is; in the first
    case the list splits at the first of them. *)
Lemma first_match title0 tasks :
  absent title0 tasks
  ∨ ∃ pre t post, tasks = pre ++ t :: post ∧ absent title0 pre
                  ∧ title t = VStr title0.
Proof.
  induction tasks as [|x tasks IH]; [left; constructor|].
  destruct (eq_str (title x) title0) eqn:Hx.
  - right. exists [], x, tasks. apply eq_str_true in Hx.
    repeat split; [constructor | done].
  - apply eq_str_false in Hx. destruct IH as [IH | (pre & t & post & -> & Hp & Ht)].
    + left. by constructor.
    + right. exists (x :: pre), t, post. repeat split; [by constructor | done].
Qed.

Lemma get_task_loop_absent title0 tasks w :
  absent title0 tasks →
  get_task_loop title0 tasks w = (Raise (TaskNotFoundError title0), w).
Proof.
  induction 1 as [|x tasks Hx _ IH]; [done|]. cbn.
  apply eq_str_false in Hx. by rewrite Hx.
Qed.

Lemma get_task_loop_found title0 pre t post w :
  absent title0 pre → title t = VStr title0 →
  get_task_loop title0 (pre ++ t :: post) w = (Return t, w).
Proof.
  intros Hpre Ht. induction Hpre as [|x pre Hx _ IH]; cbn.
  - apply eq_str_true in Ht. by rewrite Ht.
  - apply eq_str_false in Hx. by rewrite Hx.
Qed.

Lemma complete_task_loop_absent title0 tasks i rest w :
  absent title0 rest →
  complete_task_loop title0 tasks i rest w
  = (Raise (TaskNotFoundError title0), w).
Proof.
  intros H. revert i. induction H as [|x rest Hx _ IH]; intros i; [done|].
  cbn. apply eq_str_false in Hx. by rewrite Hx.
Qed.

Lemma complete_task_loop_done title0 tasks i pre t post w :
  absent title0 pre → title t = VStr title0 → truthy (done t) = true →
  complete_task_loop title0 tasks i (pre ++ t :: post) w
  = (Raise (ValueError "Task is already completed"), w).
Proof.
  intros Hpre Ht Hd. revert i. induction Hpre as [|x pre Hx _ IH]; intros i; cbn.
  - apply eq_str_true in Ht. by rewrite Ht, Hd.
  - apply eq_str_false in Hx. by rewrite Hx.
Qed.

Lemma complete_task_loop_found title0 seen pre t post w :
  absent title0 pre → title t = VStr title0 → truthy (done t) = false →
  let t' := completed t (isoformat_now (clock w)) in
  complete_task_loop title0 (seen ++ pre ++ t :: post) (length seen)
    (pre ++ t :: post) w
  = (Return t', World (saved (seen ++ pre ++ t' :: post)) (S (clock w))).
Proof.
  intros Hpre Ht Hd. revert seen.
  induction Hpre as [|x pre Hx _ IH]; intros seen; cbn.
  - apply eq_str_true in Ht. rewrite Ht, Hd.
    rewrite bind_run. cbn. rewrite bind_run, _save_run. cbn.
    rewrite insert_app_r_alt, Nat.sub_diag by lia. done.
  - apply eq_str_false in Hx. rewrite Hx.
    specialize (IH (seen ++ [x])). rewrite length_app in IH. cbn in IH.
    rewrite Nat.add_1_r, <-!(assoc_L (++)) in IH. apply IH.
Qed.

Lemma delete_task_loop_absent title0 tasks i rest w :
  absent title0 rest →
  delete_task_loop title0 tasks i rest w
  = (Raise (TaskNotFoundError title0), w).
Proof.
  intros H. revert i. induction H as [|x rest Hx _ IH]; intros i; [done|].
  cbn. apply eq_str_false in Hx. by rewrite Hx.
Qed.

Lemma delete_task_loop_found title0 seen pre t post w :
  absent title0 pre → title t = VStr title0 →
  delete_task_loop title0 (seen ++ pre ++ t :: post) (length seen)
    (pre ++ t :: post) w
  = (Return t, World (saved (seen ++ pre ++ post)) (clock w)).
Proof.
  intros Hpre Ht. revert seen.
  induction Hpre as [|x pre Hx _ IH]; intros seen; cbn.
  - apply eq_str_true in Ht. rewrite Ht.
    rewrite bind_run. unfold pop. rewrite list_lookup_middle by done.
    cbn. rewrite bind_run, _save_run. cbn. by rewrite delete_middle.
  - apply eq_str_false in Hx. rewrite Hx.
    specialize (IH (seen ++ [x])). rewrite length_app in IH. cbn in IH.
    rewrite Nat.add_1_r, <-!(assoc_L (++)) in IH. apply IH.
Qed.

(** ** The checks of [add_task] *)

Lemma lstrip_nil s : lstrip s = [] ↔ Forall (λ c, isspace c = true) s.
Proof.
  induction s as [|c s IH]; cbn; [by split; [constructor|]|].
  destruct (isspace c) eqn:Hc.
  - rewrite IH. split; [by constructor | by inversion 1].
  - split; [done | inversion 1; congruence].
Qed.

Lemma lstrip_suffix s : Forall (λ c, isspace c = true) (lstrip s) → lstrip s = [].
Proof.
  induction s as [|c s IH]; cbn; [done|].
  destruct (isspace c) eqn:Hc; [done|]. inversion 1; congruence.
Qed.

(** The stripped title is empty exactly when every character is
    whitespace. *)
Lemma strip_nil s : strip s = [] ↔ Forall (λ c, isspace c = true) s.
Proof.
  unfold strip. rewrite <-lstrip_nil. split.
  - intros H. apply (f_equal reverse) in H. rewrite reverse_involutive in H.
    cbn in H. apply lstrip_nil in H. apply lstrip_suffix.
    by apply Forall_reverse.
  - by intros ->.
Qed.

Lemma not_whitespace_only s :
  truthy (VStr (strip s)) = true ↔ Exists (λ c, isspace c = false) s.
Proof.
  cbn. rewrite negb_true_iff, bool_decide_eq_false, strip_nil.
  split.
  - intros H. apply not_Forall_Exists in H; [|intros c; apply _].
    eapply Exists_impl; [exact H|]. intros c Hc. cbn in Hc.
    by destruct (isspace c).
  - intros (c & Hin & Hc)%Exists_exists HF.
    rewrite Forall_forall in HF. specialize (HF c Hin). congruence.
Qed.

(** The three tests on the title that open [add_task] pass exactly on the
    valid titles. *)
Lemma title_checks s :
  valid_title s ↔
  truthy (VStr s) = true ∧ truthy (VStr (strip s)) = true
  ∧ (200 <? length s)%nat = false.
Proof.
  unfold valid_title. rewrite not_whitespace_only, Nat.ltb_ge. cbn.
  rewrite negb_true_iff, bool_decide_eq_false. done.
Qed.

Lemma priority_ok_int p : priority_ok (VInt p) = bool_decide (p ∈ [1; 2; 3]).
Proof.
  unfold priority_ok, in_1_2_3. cbn.
  destruct (bool_decide_reflect (p ∈ [1; 2; 3])) as [H|H].
  - set_unfold. destruct H as [-> | [-> | [-> | []]]]; done.
  - set_unfold. destruct (Z.eqb_spec p 1), (Z.eqb_spec p 2), (Z.eqb_spec p 3);
      cbn; tauto.
Qed.

(** The priorities [__post_init__] accepts: the integers 1, 2 and 3, and
    [True], which is an [int] equal to 1. *)
Lemma priority_ok_spec v :
  priority_ok v = true
  ↔ v = VInt 1 ∨ v = VInt 2 ∨ v = VInt 3 ∨ v = VBool true.
Proof.
  split.
  - destruct v as [|[]|z| | | |]; try done; [by do 3 right|].
    rewrite priority_ok_int, bool_decide_eq_true. set_unfold.
    intros [-> | [-> | [-> | []]]]; tauto.
  - by intros [-> | [-> | [-> | ->]]].
Qed.

Lemma Task_init_new title0 p w :
  Task_init {[ lit "title" := VStr title0; lit "priority" := VInt p ]} w
  = (if bool_decide (p ∈ [1; 2; 3])
     then Return (new_task title0 p (isoformat_now (clock w)))
     else Raise (ValueError "Priority must be 1, 2, or 3"),
     World (storage w) (S (clock w))).
Proof.
  unfold Task_init.
  replace (bool_decide (dom _ ⊆ Task_fields)) with true by (by vm_compute).
  replace (_ !! lit "title") with (Some (VStr title0)) by done.
  replace (_ !! lit "created_at") with (@None value) by done.
  replace (_ !! lit "done") with (@None value) by done.
  replace (_ !! lit "priority") with (Some (VInt p)) by done.
  replace (_ !! lit "completed_at") with (@None value) by done.
  repeat (rewrite bind_run; cbn -[Task_post_init]).
  rewrite Task_post_init_run. cbn [priority]. rewrite priority_ok_int.
  by case_bool_decide.
Qed.

(** [add_task] on arguments that pass its checks, over a storage that
    loads. *)
Lemma add_task_run title0 p w tasks w1 :
  valid_title title0 → _load w = (Return tasks, w1) →
  add_task title0 p w
  = if bool_decide (p ∈ [1; 2; 3])
    then let t := new_task title0 p (isoformat_now (clock w1)) in
         (Return t, World (saved (tasks ++ [t])) (S (clock w1)))
    else (Raise (ValueError "Priority must be 1, 2, or 3"),
          World (storage w1) (S (clock w1))).
Proof.
  intros (H1 & H2 & H3)%title_checks Hl. unfold add_task.
  rewrite H1, H2, H3. cbn [negb]. rewrite (bind_return _ _ _ _ _ Hl).
  rewrite bind_run, Task_init_new. by case_bool_decide.
Qed.


(** ** The operations over a loaded collection *)

Lemma complete_task_absent title0 w tasks w1 :
  _load w = (Return tasks, w1) → absent title0 tasks →
  complete_task title0 w = (Raise (TaskNotFoundError title0), w1).
Proof.
  intros Hl Ha. unfold complete_task. rewrite (bind_return _ _ _ _ _ Hl).
  by apply complete_task_loop_absent.
Qed.

Lemma complete_task_done title0 w pre t post w1 :
  _load w = (Return (pre ++ t :: post), w1) →
  absent title0 pre → title t = VStr title0 → truthy (done t) = true →
  complete_task title0 w
  = (Raise (ValueError "Task is already completed"), w1).
Proof.
  intros Hl Hp Ht Hd. unfold complete_task. rewrite (bind_return _ _ _ _ _ Hl).
  by apply complete_task_loop_done.
Qed.

Lemma complete_task_found title0 w pre t post w1 :
  _load w = (Return (pre ++ t :: post), w1) →
  absent title0 pre → title t = VStr title0 → truthy (done t) = false →
  let t' := completed t (isoformat_now (clock w1)) in
  complete_task title0 w
  = (Return t', World (saved (pre ++ t' :: post)) (S (clock w1))).
Proof.
  intros Hl Hp Ht Hd. unfold complete_task. rewrite (bind_return _ _ _ _ _ Hl).
  exact (complete_task_loop_found title0 [] pre t post w1 Hp Ht Hd).
Qed.

Lemma delete_task_absent title0 w tasks w1 :
  _load w = (Return tasks, w1) → absent title0 tasks →
  delete_task title0 w = (Raise (TaskNotFoundError title0), w1).
Proof.
  intros Hl Ha. unfold delete_task. rewrite (bind_return _ _ _ _ _ Hl).
  by apply delete_task_loop_absent.
Qed.

Lemma delete_task_found title0 w pre t post w1 :
  _load w = (Return (pre ++ t :: post), w1) →
  absent title0 pre → title t = VStr title0 →
  delete_task title0 w
  = (Return t, World (saved (pre ++ post)) (clock w1)).
Proof.
  intros Hl Hp Ht. unfold delete_task. rewrite (bind_return _ _ _ _ _ Hl).
  exact (delete_task_loop_found title0 [] pre t post w1 Hp Ht).
Qed.

Lemma get_task_absent title0 w tasks w1 :
  _load w = (Return tasks, w1) → absent title0 tasks →
  get_task title0 w = (Raise (TaskNotFoundError title0), w1).
Proof.
  intros Hl Ha. unfold get_task. rewrite (bind_return _ _ _ _ _ Hl).
  by apply get_task_loop_absent.
Qed.

Lemma get_task_found title0 w pre t post w1 :
  _load w = (Return (pre ++ t :: post), w1) →
  absent title0 pre → title t = VStr title0 →
  get_task title0 w = (Return t, w1).
Proof.
  intros Hl Hp Ht. unfold get_task. rewrite (bind_return _ _ _ _ _ Hl).
  by apply get_task_loop_found.
Qed.

Lemma Forall_middle {A} (P : A → Prop) pre x post :
  Forall P (pre ++ x :: post) ↔ Forall P pre ∧ P x ∧ Forall P post.
Proof. by rewrite Forall_app, Forall_cons. Qed.

(** ** Adding a task and reading it back *)


(** ** Completing a task *)

(** C2: over every stored collection, [complete_task] acts on the first task
    with exactly the title given. With no such task it raises the not-found
    error; if that task is already done it raises the "already completed"
    [ValueError]; in both cases the file is as before. Otherwise the task is
    replaced in place by itself with [done] true and a completion time, the
    collection is saved, the updated task is returned, and a second
    [complete_task] of the same title then raises the "already completed"
    error and changes nothing. *)
Theorem complete_task_first_match w tasks w1 title0 :
  _load w = (Return tasks, w1) →
  storage w1 = storage w
  ∧ (absent title0 tasks →
     complete_task title0 w = (Raise (TaskNotFoundError title0), w1))
  ∧ ∀ pre t post,
      tasks = pre ++ t :: post → absent title0 pre → title t = VStr title0 →
      (truthy (done t) = true →
       complete_task title0 w
       = (Raise (ValueError "Task is already completed"), w1))
      ∧ (truthy (done t) = false →
         let t' := completed t (isoformat_now (clock w1)) in
         let w2 := World (saved (pre ++ t' :: post)) (S (clock w1)) in
         complete_task title0 w = (Return t', w2)
         ∧ done t' = VBool true ∧ completed_at t' ≠ VNone
         ∧ _load w2 = (Return (pre ++ t' :: post), w2)
         ∧ complete_task title0 w2
           = (Raise (ValueError "Task is already completed"), w2)).
Proof.
  intros Hl. split; [exact (_load_storage Hl)|]. split.
  { by apply complete_task_absent. }
  intros pre t post -> Hpre Ht. split.
  { intros Hd. exact (complete_task_done _ _ _ _ _ _ Hl Hpre Ht Hd). }
  intros Hd. cbn zeta.
  set (t' := completed t (isoformat_now (clock w1))).
  set (w2 := World (saved (pre ++ t' :: post)) (S (clock w1))).
  assert (Forall Task_valid (pre ++ t' :: post)) as Hv.
  { pose proof (_load_valid Hl) as Hv. by rewrite Forall_middle in Hv |- *. }
  pose proof (_load_saved _ (S (clock w1)) Hv) as Hl2. fold w2 in Hl2.
  split; [|split; [done|split; [done|split; [done|]]]].
  - exact (complete_task_found _ _ _ _ _ _ Hl Hpre Ht Hd).
  - by apply (complete_task_done _ _ _ _ _ _ Hl2).
Qed.

(** ** Deleting a task *)

(** C3: over every stored collection, [delete_task] removes the first task
    with exactly the title given and no other, saves the rest in the order it
    had, and returns the removed task as it was stored; with no such task it
    raises the not-found error and leaves the file as it was. When no other
    task had the title, [get_task] of it then raises the not-found error. *)
Theorem delete_task_first_match w tasks w1 title0 :
  _load w = (Return tasks, w1) →
  storage w1 = storage w
  ∧ (absent title0 tasks →
     delete_task title0 w = (Raise (TaskNotFoundError title0), w1))
  ∧ ∀ pre t post,
      tasks = pre ++ t :: post → absent title0 pre → title t = VStr title0 →
      let w2 := World (saved (pre ++ post)) (clock w1) in
      delete_task title0 w = (Return t, w2)
      ∧ _load w2 = (Return (pre ++ post), w2)
      ∧ (absent title0 post →
         get_task title0 w2 = (Raise (TaskNotFoundError title0), w2)).
Proof.
  intros Hl. split; [exact (_load_storage Hl)|]. split.
  { by apply delete_task_absent. }
  intros pre t post -> Hpre Ht w2.
  assert (Forall Task_valid (pre ++ post)) as Hv.
  { pose proof (_load_valid Hl) as Hv. rewrite Forall_middle in Hv.
    rewrite Forall_app. tauto. }
  pose proof (_load_saved _ (clock w1) Hv) as Hl2. fold w2 in Hl2.
  split; [|split; [done|]].
  - exact (delete_task_found _ _ _ _ _ _ Hl Hpre Ht).
  - intros Hpost. apply (get_task_absent _ _ _ _ Hl2). by apply Forall_app.
Qed.

(** ** What [add_task] refuses *)

Lemma add_task_invalid_title title0 p w :
  ¬ valid_title title0 →
  ∃ msg, add_task title0 p w = (Raise (ValueError msg), w).
Proof.
  rewrite title_checks. intros H. unfold add_task.
  destruct (truthy (VStr title0)); [|by eexists].
  destruct (truthy (VStr (strip title0))); [|by eexists].
  destruct (200 <? length title0)%nat; [by eexists|].
  by destruct H.
Qed.



(** ** Content that is not JSON *)

Lemma _load_brackets n :
  _load (World brackets n) = (Return [], World brackets n).
Proof. rewrite _load_run. cbn [storage]. by rewrite json_loads_brackets. Qed.


(** ** Errors leave the file alone *)

Lemma _load_raise_storage {w e w'} :
  _load w = (Raise e, w') → storage w' = storage w.
Proof. intros H. pose proof (_load_spec w) as Hs. rewrite H in Hs. tauto. Qed.

Lemma complete_task_loop_raise title0 tasks i rest w e w' :
  complete_task_loop title0 tasks i rest w = (Raise e, w') → w' = w.
Proof.
  revert i. induction rest as [|x rest IH]; intros i; cbn;
    [by intros [= _ <-]|].
  destruct (eq_str _ _); [|apply IH].
  destruct (truthy _); [by intros [= _ <-] | done].
Qed.

Lemma delete_task_loop_raise title0 tasks i rest w e w' :
  delete_task_loop title0 tasks i rest w = (Raise e, w') → w' = w.
Proof.
  revert i. induction rest as [|x rest IH]; intros i; cbn;
    [by intros [= _ <-]|].
  destruct (eq_str _ _); [|apply IH].
  rewrite bind_run. unfold pop. destruct (tasks !! i); cbn;
    [done | by intros [= _ <-]].
Qed.

Lemma add_task_raise title0 p w e w' :
  add_task title0 p w = (Raise e, w') → storage w' = storage w.
Proof.
  unfold add_task.
  destruct (negb (truthy (VStr title0))); [by intros [= _ <-]|].
  destruct (negb (truthy (VStr (strip title0)))); [by intros [= _ <-]|].
  destruct (200 <? length title0)%nat; [by intros [= _ <-]|].
  rewrite bind_run. destruct (_load w) as [[tasks|e1] w1] eqn:Hl.
  - rewrite bind_run, Task_init_new. case_bool_decide; [done|].
    intros [= _ <-]. exact (_load_storage Hl).
  - intros [= _ <-]. exact (_load_raise_storage Hl).
Qed.

Lemma complete_task_raise title0 w e w' :
  complete_task title0 w = (Raise e, w') → storage w' = storage w.
Proof.
  unfold complete_task. rewrite bind_run.
  destruct (_load w) as [[tasks|e1] w1] eqn:Hl.
  - intros ->%complete_task_loop_raise. exact (_load_storage Hl).
  - intros [= _ <-]. exact (_load_raise_storage Hl).
Qed.

Lemma delete_task_raise title0 w e w' :
  delete_task title0 w = (Raise e, w') → storage w' = storage w.
Proof.
  unfold delete_task. rewrite bind_run.
  destruct (_load w) as [[tasks|e1] w1] eqn:Hl.
  - intros ->%delete_task_loop_raise. exact (_load_storage Hl).
  - intros [= _ <-]. exact (_load_raise_storage Hl).
Qed.

Lemma get_task_storage title0 w : storage (get_task title0 w).2 = storage w.
Proof.
  destruct (_load w) as [[tasks|e1] w1] eqn:Hl.
  - destruct (first_match title0 tasks) as [Ha | (pre & x & post & -> & Hp & Hx)].
    + rewrite (get_task_absent _ _ _ _ Hl Ha). exact (_load_storage Hl).
    + rewrite (get_task_found _ _ _ _ _ _ Hl Hp Hx). exact (_load_storage Hl).
  - unfold get_task. rewrite (bind_raise _ _ _ _ _ Hl).
    exact (_load_raise_storage Hl).
Qed.

(** C6: when [add_task], [complete_task], [delete_task] or [get_task]
    raises (a [ValueError], a not-found error or any other), the content of
    the file is what it was before the call. *)
Theorem failed_operation_keeps_storage op w e w' :
  run op w = (Raise e, w') → storage w' = storage w.
Proof.
  destruct op as [title0 p | title0 | title0 | title0]; cbn [run].
  - apply add_task_raise.
  - apply complete_task_raise.
  - apply delete_task_raise.
  - intros H. pose proof (get_task_storage title0 w) as Hs.
    by rewrite H in Hs.
Qed.

(** ** The state of the stored tasks *)

Lemma stored_inv_saved tasks :
  Forall Task_valid tasks → Forall task_inv tasks → stored_inv (saved tasks).
Proof.
  intros Hv Hi. exists tasks. unfold saved. by rewrite json_loads_dumps.
Qed.

Lemma stored_inv_load w :
  stored_inv (storage w) →
  ∃ tasks, _load w = (Return tasks, w)
           ∧ Forall Task_valid tasks ∧ Forall task_inv tasks.
Proof.
  intros (tasks & Hj & Hv & Hi). exists tasks. split; [|done].
  rewrite _load_run, Hj, bind_run. cbn [iter].
  by apply comprehension_asdict.
Qed.

Lemma new_task_inv title0 p s :
  p ∈ [1; 2; 3] →
  Task_valid (new_task title0 p s) ∧ task_inv (new_task title0 p s).
Proof.
  intros Hp. split.
  - unfold Task_valid. cbn [new_task priority].
    by rewrite priority_ok_int, bool_decide_true.
  - split; [by cbn | by exists p].
Qed.

Lemma completed_inv t s : task_inv t → task_inv (completed t s).
Proof. intros [_ Hp]. split; [by cbn | exact Hp]. Qed.

Lemma reachable_stored_inv w : reachable w → stored_inv (storage w).
Proof.
  induction 1 as [n | w title0 p _ IH | w title0 _ IH | w title0 _ IH].
  - exists []. cbn [storage _ensure_storage]. by rewrite json_loads_brackets.
  - destruct (add_task title0 p w) as [[t|e] w'] eqn:Ha; cbn [snd].
    2:{ by rewrite (add_task_raise _ _ _ _ _ Ha). }
    destruct (stored_inv_load w IH) as (tasks & Hl & Hv & Hi).
    destruct (decide (valid_title title0)) as [Ht|Ht].
    2:{ destruct (add_task_invalid_title title0 p w Ht) as [msg Hm].
        congruence. }
    rewrite (add_task_run _ _ _ _ _ Ht Hl) in Ha.
    case_bool_decide as Hp; [|done]. injection Ha as _ <-. cbn [storage].
    destruct (new_task_inv title0 p (isoformat_now (clock w)) Hp).
    apply stored_inv_saved; apply Forall_app; (split; [done|]);
      by apply Forall_singleton.
  - destruct (complete_task title0 w) as [[t|e] w'] eqn:Hc; cbn [snd].
    2:{ by rewrite (complete_task_raise _ _ _ _ Hc). }
    destruct (stored_inv_load w IH) as (tasks & Hl & Hv & Hi).
    destruct (first_match title0 tasks) as [Ha | (pre & x & post & -> & Hp & Hx)].
    { by rewrite (complete_task_absent _ _ _ _ Hl Ha) in Hc. }
    destruct (truthy (done x)) eqn:Hd.
    { by rewrite (complete_task_done _ _ _ _ _ _ Hl Hp Hx Hd) in Hc. }
    rewrite (complete_task_found _ _ _ _ _ _ Hl Hp Hx Hd) in Hc.
    injection Hc as _ <-. cbn [storage].
    rewrite Forall_middle in Hv, Hi.
    destruct Hv as (? & ? & ?), Hi as (? & ? & ?).
    apply stored_inv_saved; rewrite Forall_middle;
      repeat split; try done. by apply completed_inv.
  - destruct (delete_task title0 w) as [[t|e] w'] eqn:Hc; cbn [snd].
    2:{ by rewrite (delete_task_raise _ _ _ _ Hc). }
    destruct (stored_inv_load w IH) as (tasks & Hl & Hv & Hi).
    destruct (first_match title0 tasks) as [Ha | (pre & x & post & -> & Hp & Hx)].
    { by rewrite (delete_task_absent _ _ _ _ Hl Ha) in Hc. }
    rewrite (delete_task_found _ _ _ _ _ _ Hl Hp Hx) in Hc.
    injection Hc as _ <-. cbn [storage].
    rewrite Forall_middle in Hv, Hi.
    destruct Hv as (? & ? & ?), Hi as (? & ? & ?).
    apply stored_inv_saved; rewrite Forall_app; by split.
Qed.

(** C7: in every world reached from a newly created storage by [add_task],
    [complete_task] and [delete_task], the file loads, and every task in it
    has a completion time exactly when it is done and a priority among 1, 2
    and 3. *)
Theorem reachable_task_inv w :
  reachable w →
  ∃ tasks, _load w = (Return tasks, w) ∧ Forall task_inv tasks.
Proof.
  intros Hr. destruct (stored_inv_load w (reachable_stored_inv w Hr))
    as (tasks & Hl & _ & Hi). by exists tasks.
Qed.

(** ** Saving then loading *)


(** ** Filtering by priority *)

(** C9: [get_tasks_by_priority] raises a [ValueError] when the priority is
    not 1, 2 or 3, and otherwise returns the tasks of [get_all_tasks] whose
    priority equals it, in the order they are stored (or fails as
    [get_all_tasks] does); the file is not modified. *)
Theorem get_tasks_by_priority_filters p w :
  get_tasks_by_priority p w
  = (if bool_decide (p ∈ [1; 2; 3]) then
       match get_all_tasks w with
       | (Return all, w') =>
           (Return (filter (λ t, eq_int (priority t) p = true) all), w')
       | (Raise e, w') => (Raise e, w')
       end
     else (Raise (ValueError "Priority must be 1, 2, or 3"), w))
  ∧ storage (get_tasks_by_priority p w).2 = storage w
  ∧ ∀ all w', p ∈ [1; 2; 3] → get_all_tasks w = (Return all, w') →
      ∃ found, get_tasks_by_priority p w = (Return found, w')
               ∧ found `sublist_of` all
               ∧ ∀ t, t ∈ found ↔ t ∈ all ∧ eq_int (priority t) p = true.
Proof.
  assert (get_tasks_by_priority p w
          = (if bool_decide (p ∈ [1; 2; 3]) then
               match get_all_tasks w with
               | (Return all, w') =>
                   (Return (filter (λ t, eq_int (priority t) p = true) all), w')
               | (Raise e, w') => (Raise e, w')
               end
             else (Raise (ValueError "Priority must be 1, 2, or 3"), w))) as Heq.
  { unfold get_tasks_by_priority, get_all_tasks.
    case_bool_decide; [|done]. cbn [negb]. rewrite bind_run.
    by destruct (_load w) as [[all|e] w']. }
  split; [exact Heq|]. split.
  - rewrite Heq. unfold get_all_tasks. case_bool_decide; [|done].
    destruct (_load w) as [[all|e] w'] eqn:Hl; cbn [snd].
    + exact (_load_storage Hl).
    + exact (_load_raise_storage Hl).
  - intros all w' Hp Hall. rewrite Heq, bool_decide_true, Hall by done.
    eexists. split; [done|]. split; [apply sublist_filter|].
    intros t. rewrite list_elem_of_filter. tauto.
Qed.

(** ** Content that is JSON but not a list of task records *)

Lemma comprehension_length items w tasks w' :
  comprehension Task_of_item items w = (Return tasks, w') →
  length tasks = length items.
Proof.
  revert w tasks w'.
  induction items as [|item items IH]; intros w tasks w'; cbn.
  { by intros [= <- _]. }
  rewrite bind_run. destruct (Task_of_item item w) as [[t|e] w1]; [|done].
  rewrite bind_run. destruct (comprehension _ items w1) as [[ts|e] w2] eqn:Hc;
    [|done]. intros [= <- _]. cbn. f_equal. by eapply IH.
Qed.

Lemma decodes_items data w :
  decodes data = false →
  (∃ items, iter data w = (Return items, w) ∧ forallb item_ok items = false)
  ∨ iter data w = (Raise TypeError, w).
Proof.
  destruct data as [| | | | s | l | d]; cbn; try (by right).
  - intros Hs%bool_decide_eq_false. destruct s as [|c s]; [done|].
    left. eexists. split; [done|]. done.
  - intros Hl. left. eexists. split; [done|]. done.
  - intros Hd%bool_decide_eq_false. left. eexists. split; [done|].
    destruct (map_to_list d) as [|kv l] eqn:Hm; [|done].
    apply map_to_list_empty_iff in Hm. by rewrite Hm, map_size_empty in Hd.
Qed.

Lemma _load_invalid w data :
  json_loads (storage w) = Some data → decodes data = false →
  ∃ e w', _load w = (Raise e, w') ∧ construction_error e.
Proof.
  intros Hj Hd. rewrite _load_run, Hj, bind_run.
  destruct (decodes_items data w Hd) as [(items & -> & Hi) | ->].
  - pose proof (comprehension_spec items w) as Hs.
    destruct (comprehension _ items w) as [[ts|e] w'].
    + destruct Hs as [Hs _]. congruence.
    + destruct Hs as (_ & _ & He). by eexists _, _.
  - eexists _, _. split; [done | by left].
Qed.

Lemma _load_decodes w data :
  json_loads (storage w) = Some data → decodes data = true →
  ∃ tasks w', _load w = (Return tasks, w')
              ∧ match data with
                | VList items => length tasks = length items
                | _ => tasks = []
                end.
Proof.
  intros Hj Hd. rewrite _load_run, Hj, bind_run.
  destruct data as [| | | | s | l | d]; cbn in Hd |- *; try done.
  - apply bool_decide_eq_true in Hd as ->. by eexists _, _.
  - pose proof (comprehension_spec l w) as Hs.
    destruct (comprehension _ l w) as [[ts|e] w'] eqn:Hc.
    + eexists _, _. split; [done|]. by eapply comprehension_length.
    + destruct Hs as [Hs _]. congruence.
  - apply bool_decide_eq_true, map_size_empty_iff in Hd as ->.
    rewrite map_to_list_empty. by eexists _, _.
Qed.

(** C10, as amended: when the file holds JSON, [_load] raises a [TypeError]
    or the [ValueError] of [__post_init__] exactly when the value is an
    array with an entry that is not an object, has a key that is not a field,
    has no title, or has a priority other than 1, 2, 3 and true, or is a
    number, a boolean, null, a non-empty string or a non-empty object; that error then comes out of every public operation whose own
    checks of its arguments pass. Otherwise [_load] returns: one task per
    entry of an array, where an entry without done, priority, created_at or
    completed_at gets the defaults, and no task for an empty object or an
    empty string. *)
Theorem _load_invalid_data w data :
  json_loads (storage w) = Some data →
  if decodes data then
    ∃ tasks w', _load w = (Return tasks, w')
                ∧ match data with
                  | VList items => length tasks = length items
                  | _ => tasks = []
                  end
  else
    ∃ e w', _load w = (Raise e, w') ∧ construction_error e
      ∧ storage w' = storage w
      ∧ (∀ A (k : list Task → M A), (_load ≫= k) w = (Raise e, w'))
      ∧ get_all_tasks w = (Raise e, w')
      ∧ active_tasks_count w = (Raise e, w')
      ∧ (∀ title0, get_task title0 w = (Raise e, w')
                   ∧ complete_task title0 w = (Raise e, w')
                   ∧ delete_task title0 w = (Raise e, w'))
      ∧ (∀ title0 p, valid_title title0 → add_task title0 p w = (Raise e, w'))
      ∧ (∀ p, p ∈ [1; 2; 3] → get_tasks_by_priority p w = (Raise e, w'))
      ∧ get_high_priority_tasks w = (Raise e, w').
Proof.
  intros Hj. destruct (decodes data) eqn:Hd; [by apply _load_decodes|].
  destruct (_load_invalid w data Hj Hd) as (e & w' & Hl & He).
  exists e, w'. split; [done|]. split; [done|].
  split; [exact (_load_raise_storage Hl)|].
  assert (∀ A (k : list Task → M A), (_load ≫= k) w = (Raise e, w')) as Hk.
  { intros A k. by apply bind_raise. }
  split; [done|]. split; [done|]. split; [apply Hk|].
  split; [intros title0; repeat split; apply Hk|]. split.
  { intros title0 p (H1 & H2 & H3)%title_checks. unfold add_task.
    rewrite H1, H2, H3. cbn [negb]. apply Hk. }
  split.
  { intros p Hp. unfold get_tasks_by_priority.
    rewrite bool_decide_true by done. apply Hk. }
  unfold get_high_priority_tasks, get_tasks_by_priority.
  rewrite bool_decide_true by set_solver. apply Hk.
Qed.

(** ** The errors that reach the caller *)

Lemma construction_error_public e : construction_error e → public_error e.
Proof. intros [-> | ->]; [by right; left | left; by eexists]. Qed.

(** X1: the index [delete_task] pops is always in range and the error of
    [json.loads] never escapes [_load]: whatever the file holds, an operation
    that fails raises a [ValueError], a [TypeError] or a
    [TaskNotFoundError]. *)
Theorem run_raises_public_error op w e w' :
  run op w = (Raise e, w') → public_error e.
Proof.
  destruct (_load w) as [[tasks|e1] w1] eqn:Hl.
  2:{ pose proof (_load_spec w) as Hs. rewrite Hl in Hs.
      destruct Hs as [_ He%construction_error_public].
      destruct op as [title0 p | title0 | title0 | title0]; cbn [run].
      - destruct (decide (valid_title title0)) as [Hv|Hv].
        + apply title_checks in Hv as (H1 & H2 & H3). unfold add_task.
          rewrite H1, H2, H3. cbn [negb]. rewrite (bind_raise _ _ _ _ _ Hl).
          by intros [= <- _].
        + destruct (add_task_invalid_title title0 p w Hv) as [msg ->].
          intros [= <- _]. left. by eexists.
      - unfold complete_task. rewrite (bind_raise _ _ _ _ _ Hl).
        by intros [= <- _].
      - unfold delete_task. rewrite (bind_raise _ _ _ _ _ Hl).
        by intros [= <- _].
      - unfold get_task. rewrite (bind_raise _ _ _ _ _ Hl).
        by intros [= <- _]. }
  destruct op as [title0 p | title0 | title0 | title0]; cbn [run].
  - destruct (decide (valid_title title0)) as [Hv|Hv].
    + rewrite (add_task_run _ _ _ _ _ Hv Hl). case_bool_decide; [done|].
      intros [= <- _]. left. by eexists.
    + destruct (add_task_invalid_title title0 p w Hv) as [msg ->].
      intros [= <- _]. left. by eexists.
  - destruct (first_match title0 tasks) as [Ha | (pre & x & post & -> & Hp & Hx)].
    + rewrite (complete_task_absent _ _ _ _ Hl Ha). intros [= <- _].
      do 2 right. by eexists.
    + destruct (truthy (done x)) eqn:Hd.
      * rewrite (complete_task_done _ _ _ _ _ _ Hl Hp Hx Hd). intros [= <- _].
        left. by eexists.
      * by rewrite (complete_task_found _ _ _ _ _ _ Hl Hp Hx Hd).
  - destruct (first_match title0 tasks) as [Ha | (pre & x & post & -> & Hp & Hx)].
    + rewrite (delete_task_absent _ _ _ _ Hl Ha). intros [= <- _].
      do 2 right. by eexists.
    + by rewrite (delete_task_found _ _ _ _ _ _ Hl Hp Hx).
  - destruct (first_match title0 tasks) as [Ha | (pre & x & post & -> & Hp & Hx)].
    + rewrite (get_task_absent _ _ _ _ Hl Ha). intros [= <- _].
      do 2 right. by eexists.
    + by rewrite (get_task_found _ _ _ _ _ _ Hl Hp Hx).
Qed.

(** ** A session *)

Lemma active_tasks_count_run w tasks w1 :
  _load w = (Return tasks, w1) →
  active_tasks_count w
  = (Return (foldr (λ t n, Z.b2z (negb (truthy (done t))) + n) 0 tasks), w1).
Proof.
  intros Hl. unfold active_tasks_count. by rewrite (bind_return _ _ _ _ _ Hl).
Qed.


End Properties.

(** * More properties: counting, reading, and how the operations compose *)

Section MoreProperties.
Context `{rt : Runtime} `{py : Interpreter}.

Implicit Types (w : world) (t : Task) (tasks : list Task) (e : exn).

(** ** The two counts *)

Lemma n_active_cons t tasks :
  n_active (t :: tasks) = Z.b2z (negb (truthy (done t))) + n_active tasks.
Proof.
  unfold n_active. rewrite filter_cons.
  destruct (truthy (done t)); case_decide; try done. cbn [length]. cbn. lia.
Qed.

Lemma n_done_cons t tasks :
  n_done (t :: tasks) = Z.b2z (truthy (done t)) + n_done tasks.
Proof.
  unfold n_done. rewrite filter_cons.
  destruct (truthy (done t)); case_decide; try done. cbn [length]. cbn. lia.
Qed.

Lemma n_active_app tasks1 tasks2 :
  n_active (tasks1 ++ tasks2) = n_active tasks1 + n_active tasks2.
Proof. unfold n_active. rewrite filter_app, length_app. lia. Qed.

Lemma active_foldr tasks :
  foldr (λ t n, Z.b2z (negb (truthy (done t))) + n) 0 tasks = n_active tasks.
Proof.
  induction tasks as [|t tasks IH]; [done|].
  cbn [foldr]. by rewrite IH, n_active_cons.
Qed.

Lemma n_active_n_done tasks :
  n_active tasks + n_done tasks = Z.of_nat (length tasks).
Proof.
  induction tasks as [|t tasks IH]; [done|].
  rewrite n_active_cons, n_done_cons. cbn [length].
  destruct (truthy (done t)); cbn; lia.
Qed.

Lemma active_tasks_count_n_active w tasks w1 :
  _load w = (Return tasks, w1) →
  active_tasks_count w = (Return (n_active tasks), w1).
Proof.
  intros Hl. by rewrite (active_tasks_count_run _ _ _ Hl), active_foldr.
Qed.

Lemma completed_tasks_count_run w tasks w1 :
  _load w = (Return tasks, w1) →
  completed_tasks_count w = (builtin_sum 0 (done <$> tasks), w1).
Proof.
  intros Hl. unfold completed_tasks_count.
  by rewrite (bind_return _ _ _ _ _ Hl).
Qed.

Lemma builtin_sum_ints acc tasks :
  Forall (λ t, is_int (done t)) tasks →
  builtin_sum acc (done <$> tasks)
  = Return (VInt (acc + foldr (λ t n, int_of (done t) + n) 0 tasks)).
Proof.
  intros H. revert acc. induction H as [|t tasks Ht _ IH]; intros acc; cbn.
  { by rewrite Z.add_0_r. }
  destruct (done t) as [|b|z| | | |]; try done; cbn; rewrite IH;
    do 2 f_equal; lia.
Qed.

Lemma builtin_sum_bools acc tasks :
  Forall done_is_bool tasks →
  builtin_sum acc (done <$> tasks) = Return (VInt (acc + n_done tasks)).
Proof.
  intros H. revert acc. induction H as [|t tasks [b Hb] _ IH]; intros acc.
  { cbn. by rewrite Z.add_0_r. }
  rewrite n_done_cons. cbn. rewrite Hb. cbn. rewrite IH. do 2 f_equal. lia.
Qed.

Lemma builtin_sum_not_a_number acc pre t post :
  Forall (λ x, is_int (done x)) pre → not_a_number (done t) →
  builtin_sum acc (done <$> pre ++ t :: post) = Raise TypeError.
Proof.
  intros H Ht. revert acc. induction H as [|x pre Hx _ IH]; intros acc; cbn.
  - by destruct (done t).
  - destruct (done x); try done; apply IH.
Qed.

(** X3: over a storage whose tasks all have a boolean [done],
    [active_tasks_count] is the number of tasks not done,
    [completed_tasks_count] the number of tasks done, and the two add up to
    the number of tasks [get_all_tasks] returns. *)
Theorem counts_add_up w tasks w1 :
  get_all_tasks w = (Return tasks, w1) → Forall done_is_bool tasks →
  active_tasks_count w = (Return (n_active tasks), w1)
  ∧ completed_tasks_count w = (Return (VInt (n_done tasks)), w1)
  ∧ n_active tasks + n_done tasks = Z.of_nat (length tasks).
Proof.
  intros Hl Hb. split; [by apply active_tasks_count_n_active|]. split.
  - by rewrite (completed_tasks_count_run _ _ _ Hl), builtin_sum_bools.
  - apply n_active_n_done.
Qed.

(** X4: [completed_tasks_count] adds the stored [done] fields themselves: when
    they are all ints it returns their sum, which is not the number of
    completed tasks unless they are 0 or 1. *)
Theorem completed_tasks_count_sums_ints w tasks w1 :
  get_all_tasks w = (Return tasks, w1) → Forall (λ t, is_int (done t)) tasks →
  completed_tasks_count w
  = (Return (VInt (foldr (λ t n, int_of (done t) + n) 0 tasks)), w1).
Proof.
  intros Hl Hi.
  by rewrite (completed_tasks_count_run _ _ _ Hl), builtin_sum_ints.
Qed.

(** X5: when the first stored [done] that is not an int is null, a string,
    an array or an object, [completed_tasks_count] raises a [TypeError],
    while [active_tasks_count], which only tests the fields, returns. *)
Theorem completed_tasks_count_type_error w pre t post w1 :
  get_all_tasks w = (Return (pre ++ t :: post), w1) →
  Forall (λ x, is_int (done x)) pre → not_a_number (done t) →
  completed_tasks_count w = (Raise TypeError, w1)
  ∧ active_tasks_count w = (Return (n_active (pre ++ t :: post)), w1).
Proof.
  intros Hl Hp Ht. split.
  - by rewrite (completed_tasks_count_run _ _ _ Hl), builtin_sum_not_a_number.
  - by apply active_tasks_count_n_active.
Qed.

(** ** What holds of every stored task *)

(** A property of tasks that [add_task] establishes on the task it builds
    and [complete_task] keeps holds of every task of every reachable
    storage, which moreover loads without reading the clock. *)
Lemma reachable_Forall (P : Task → Prop) :
  (∀ title0 p s, p ∈ [1; 2; 3] → P (new_task title0 p s)) →
  (∀ t s, P t → P (completed t s)) →
  ∀ w, reachable w →
    ∃ tasks, json_loads (storage w)
             = Some (VList ((λ t, VDict (asdict t)) <$> tasks))
             ∧ Forall Task_valid tasks ∧ Forall P tasks.
Proof.
  intros Hnew Hcompleted w.
  assert (∀ w tasks,
    json_loads (storage w) = Some (VList ((λ t, VDict (asdict t)) <$> tasks)) →
    Forall Task_valid tasks → _load w = (Return tasks, w)) as Hload.
  { intros w0 tasks Hj Hv. rewrite _load_run, Hj, bind_run. cbn [iter].
    by apply comprehension_asdict. }
  assert (∀ tasks, Forall Task_valid tasks → Forall P tasks →
    ∃ tasks', json_loads (saved tasks)
              = Some (VList ((λ t, VDict (asdict t)) <$> tasks'))
              ∧ Forall Task_valid tasks' ∧ Forall P tasks') as Hsaved.
  { intros tasks Hv HP. exists tasks. unfold saved.
    by rewrite json_loads_dumps. }
  induction 1 as [n | w title0 p _ IH | w title0 _ IH | w title0 _ IH].
  - exists []. cbn [storage _ensure_storage]. by rewrite json_loads_brackets.
  - destruct (add_task title0 p w) as [[t|e] w'] eqn:Ha; cbn [snd].
    2:{ by rewrite (add_task_raise _ _ _ _ _ Ha). }
    destruct IH as (tasks & Hj & Hv & HP).
    pose proof (Hload w tasks Hj Hv) as Hl.
    destruct (decide (valid_title title0)) as [Ht|Ht].
    2:{ destruct (add_task_invalid_title title0 p w Ht) as [msg Hm].
        congruence. }
    rewrite (add_task_run _ _ _ _ _ Ht Hl) in Ha.
    case_bool_decide as Hp; [|done]. injection Ha as _ <-. cbn [storage].
    destruct (new_task_inv title0 p (isoformat_now (clock w)) Hp).
    apply Hsaved; apply Forall_app; (split; [done|]);
      apply Forall_singleton; [done | by apply Hnew].
  - destruct (complete_task title0 w) as [[t|e] w'] eqn:Hc; cbn [snd].
    2:{ by rewrite (complete_task_raise _ _ _ _ Hc). }
    destruct IH as (tasks & Hj & Hv & HP).
    pose proof (Hload w tasks Hj Hv) as Hl.
    destruct (first_match title0 tasks) as [Ha | (pre & x & post & -> & Hp & Hx)].
    { by rewrite (complete_task_absent _ _ _ _ Hl Ha) in Hc. }
    destruct (truthy (done x)) eqn:Hd.
    { by rewrite (complete_task_done _ _ _ _ _ _ Hl Hp Hx Hd) in Hc. }
    rewrite (complete_task_found _ _ _ _ _ _ Hl Hp Hx Hd) in Hc.
    injection Hc as _ <-. cbn [storage].
    rewrite Forall_middle in Hv, HP.
    destruct Hv as (? & ? & ?), HP as (? & ? & ?).
    apply Hsaved; rewrite Forall_middle; repeat split; try done.
    by apply Hcompleted.
  - destruct (delete_task title0 w) as [[t|e] w'] eqn:Hc; cbn [snd].
    2:{ by rewrite (delete_task_raise _ _ _ _ Hc). }
    destruct IH as (tasks & Hj & Hv & HP).
    pose proof (Hload w tasks Hj Hv) as Hl.
    destruct (first_match title0 tasks) as [Ha | (pre & x & post & -> & Hp & Hx)].
    { by rewrite (delete_task_absent _ _ _ _ Hl Ha) in Hc. }
    rewrite (delete_task_found _ _ _ _ _ _ Hl Hp Hx) in Hc.
    injection Hc as _ <-. cbn [storage].
    rewrite Forall_middle in Hv, HP.
    destruct Hv as (? & ? & ?), HP as (? & ? & ?).
    apply Hsaved; rewrite Forall_app; by split.
Qed.

Lemma reachable_load (P : Task → Prop) :
  (∀ title0 p s, p ∈ [1; 2; 3] → P (new_task title0 p s)) →
  (∀ t s, P t → P (completed t s)) →
  ∀ w, reachable w → ∃ tasks, _load w = (Return tasks, w) ∧ Forall P tasks.
Proof.
  intros Hn Hc w Hr.
  destruct (reachable_Forall P Hn Hc w Hr) as (tasks & Hj & Hv & HP).
  exists tasks. split; [|done].
  rewrite _load_run, Hj, bind_run. cbn [iter]. by apply comprehension_asdict.
Qed.

(** X6: in every world reached from a new storage by [add_task],
    [complete_task] and [delete_task], the active and the completed tasks
    add up to all the tasks: [active_tasks_count] plus
    [completed_tasks_count] is the length of [get_all_tasks], and none of the
    three reads changes the world. *)
Theorem reachable_counts_add_up w :
  reachable w →
  ∃ tasks a c,
    get_all_tasks w = (Return tasks, w)
    ∧ active_tasks_count w = (Return a, w)
    ∧ completed_tasks_count w = (Return (VInt c), w)
    ∧ a + c = Z.of_nat (length tasks) ∧ 0 ≤ a ∧ 0 ≤ c.
Proof.
  intros Hr.
  destruct (reachable_load done_is_bool) with (w := w)
    as (tasks & Hl & Hb); [by eexists | by eexists | done |].
  exists tasks, (n_active tasks), (n_done tasks).
  split; [done|]. split; [by apply active_tasks_count_n_active|]. split.
  { by rewrite (completed_tasks_count_run _ _ _ Hl), builtin_sum_bools. }
  split; [apply n_active_n_done|]. unfold n_active, n_done. lia.
Qed.

(** X7: every task of every reachable storage has the types the dataclass
    declares: a string title, a boolean [done], a string creation time and a
    completion time that is a string or null. *)
Theorem reachable_well_typed w :
  reachable w →
  ∃ tasks, get_all_tasks w = (Return tasks, w) ∧ Forall well_typed tasks.
Proof.
  apply reachable_load.
  - intros title0 p s _. repeat split; try by eexists. by left.
  - intros t s (Ht & _ & Hc & _). repeat split; try done; try by eexists.
    right. by eexists.
Qed.

(** ** The effect of each operation on the stored list *)

Lemma others_app title0 tasks1 tasks2 :
  others title0 (tasks1 ++ tasks2) = others title0 tasks1 ++ others title0 tasks2.
Proof. apply filter_app. Qed.

Lemma others_match title0 t tasks :
  title t = VStr title0 → others title0 (t :: tasks) = others title0 tasks.
Proof.
  intros Ht%eq_str_true. unfold others. rewrite filter_cons.
  case_decide; [congruence | done].
Qed.



(** X10: a successful [delete_task] removes one task and nothing else: the
    task returned was stored, the list left is the former one without it, in
    the same order and one shorter, the tasks with another title are the
    same, and the active count drops by one exactly when the task removed
    was active. *)
Theorem delete_task_effect w tasks w1 title0 t w2 :
  get_all_tasks w = (Return tasks, w1) →
  delete_task title0 w = (Return t, w2) →
  ∃ tasks',
    get_all_tasks w2 = (Return tasks', w2)
    ∧ tasks ≡ₚ t :: tasks'
    ∧ tasks' `sublist_of` tasks
    ∧ length tasks = S (length tasks')
    ∧ others title0 tasks' = others title0 tasks
    ∧ n_active tasks' = n_active tasks - Z.b2z (negb (truthy (done t))).
Proof.
  intros Hl Hc.
  destruct (first_match title0 tasks) as [Ha | (pre & x & post & -> & Hp & Hx)].
  { by rewrite (delete_task_absent _ _ _ _ Hl Ha) in Hc. }
  rewrite (delete_task_found _ _ _ _ _ _ Hl Hp Hx) in Hc.
  injection Hc as <- <-. exists (pre ++ post).
  assert (Forall Task_valid (pre ++ post)) as Hv.
  { pose proof (_load_valid Hl) as Hv. rewrite Forall_middle in Hv.
    rewrite Forall_app. tauto. }
  split; [exact (_load_saved _ _ Hv)|].
  split; [by rewrite Permutation_middle|].
  split; [apply sublist_app; [done | by apply sublist_cons]|].
  split; [rewrite !length_app; cbn; lia|]. split.
  { by rewrite !others_app, others_match. }
  rewrite !n_active_app, n_active_cons. lia.
Qed.


(** X12: whatever the file held, after [add_task], [complete_task] or
    [delete_task] has returned, the file is the one [_save] writes for a
    list of valid tasks: it loads to that list without error and without
    reading the clock. *)
Theorem successful_mutation_canonical op w t w' :
  mutation op → run op w = (Return t, w') →
  ∃ tasks', storage w' = saved tasks' ∧ Forall Task_valid tasks'
            ∧ get_all_tasks w' = (Return tasks', w').
Proof.
  intros Hm Hr.
  assert (∀ tasks' n, Forall Task_valid tasks' →
    ∃ tasks'', storage (World (saved tasks') n) = saved tasks''
               ∧ Forall Task_valid tasks''
               ∧ get_all_tasks (World (saved tasks') n)
                 = (Return tasks'', World (saved tasks') n)) as Hsaved.
  { intros tasks' n Hv. exists tasks'. split; [done|]. split; [done|].
    by apply _load_saved. }
  destruct (_load w) as [[tasks|e1] w1] eqn:Hl.
  2:{ destruct op as [title0 p | title0 | title0 | title0]; cbn [run] in Hr;
        try done.
      - destruct (decide (valid_title title0)) as [Hv|Hv].
        + apply title_checks in Hv as (H1 & H2 & H3). unfold add_task in Hr.
          rewrite H1, H2, H3 in Hr. cbn [negb] in Hr.
          by rewrite (bind_raise _ _ _ _ _ Hl) in Hr.
        + destruct (add_task_invalid_title title0 p w Hv) as [msg Hm'].
          congruence.
      - unfold complete_task in Hr. by rewrite (bind_raise _ _ _ _ _ Hl) in Hr.
      - unfold delete_task in Hr. by rewrite (bind_raise _ _ _ _ _ Hl) in Hr. }
  pose proof (_load_valid Hl) as Hv.
  destruct op as [title0 p | title0 | title0 | title0]; cbn [run] in Hr;
    try done.
  - destruct (decide (valid_title title0)) as [Ht|Ht].
    2:{ destruct (add_task_invalid_title title0 p w Ht) as [msg Hm'].
        congruence. }
    rewrite (add_task_run _ _ _ _ _ Ht Hl) in Hr.
    case_bool_decide as Hp; [|done]. injection Hr as _ <-.
    apply Hsaved. apply Forall_app. split; [done|].
    apply Forall_singleton. by apply new_task_inv.
  - destruct (first_match title0 tasks) as [Ha | (pre & x & post & -> & Hp & Hx)].
    { by rewrite (complete_task_absent _ _ _ _ Hl Ha) in Hr. }
    destruct (truthy (done x)) eqn:Hd.
    { by rewrite (complete_task_done _ _ _ _ _ _ Hl Hp Hx Hd) in Hr. }
    rewrite (complete_task_found _ _ _ _ _ _ Hl Hp Hx Hd) in Hr.
    injection Hr as _ <-. apply Hsaved. by rewrite Forall_middle in Hv |- *.
  - destruct (first_match title0 tasks) as [Ha | (pre & x & post & -> & Hp & Hx)].
    { by rewrite (delete_task_absent _ _ _ _ Hl Ha) in Hr. }
    rewrite (delete_task_found _ _ _ _ _ _ Hl Hp Hx) in Hr.
    injection Hr as _ <-. apply Hsaved. rewrite Forall_middle in Hv.
    rewrite Forall_app. tauto.
Qed.

(** ** Reading *)

(** X13: over every stored collection, [get_task] returns the first task, in
    storage order, whose title is exactly the one given, as it is stored,
    and raises the not-found error when there is none; tasks with the same
    title further on are never returned. *)
Theorem get_task_first_match w tasks w1 title0 :
  get_all_tasks w = (Return tasks, w1) →
  (absent title0 tasks →
   get_task title0 w = (Raise (TaskNotFoundError title0), w1))
  ∧ ∀ pre t post,
      tasks = pre ++ t :: post → absent title0 pre → title t = VStr title0 →
      get_task title0 w = (Return t, w1).
Proof.
  intros Hl. split; [by apply get_task_absent|].
  intros pre t post -> Hpre Ht. exact (get_task_found _ _ _ _ _ _ Hl Hpre Ht).
Qed.

Lemma eq_int_valid t :
  Task_valid t →
  (eq_int (priority t) 1 = true ∧ eq_int (priority t) 2 = false
   ∧ eq_int (priority t) 3 = false)
  ∨ (eq_int (priority t) 1 = false ∧ eq_int (priority t) 2 = true
     ∧ eq_int (priority t) 3 = false)
  ∨ (eq_int (priority t) 1 = false ∧ eq_int (priority t) 2 = false
     ∧ eq_int (priority t) 3 = true).
Proof.
  intros Hv%priority_ok_spec.
  destruct Hv as [-> | [-> | [-> | ->]]]; cbn; tauto.
Qed.

Lemma filter_priority_length tasks :
  Forall Task_valid tasks →
  (length (filter (λ t, eq_int (priority t) 1 = true) tasks)
   + length (filter (λ t, eq_int (priority t) 2 = true) tasks)
   + length (filter (λ t, eq_int (priority t) 3 = true) tasks)
   = length tasks)%nat.
Proof.
  induction 1 as [|t tasks Ht _ IH]; [done|].
  rewrite !filter_cons.
  destruct (eq_int_valid t Ht) as [(-> & -> & ->) | [(-> & -> & ->) | (-> & -> & ->)]];
    repeat case_decide; try done; cbn [length]; lia.
Qed.

(** X14: over every storage that loads, the three priorities split the
    tasks: each task of [get_all_tasks] is returned by
    [get_tasks_by_priority] for exactly one of 1, 2 and 3, so the three
    lists together have as many tasks as there are. *)
Theorem priorities_partition w tasks w1 :
  get_all_tasks w = (Return tasks, w1) →
  ∃ low medium high,
    get_tasks_by_priority 1 w = (Return low, w1)
    ∧ get_tasks_by_priority 2 w = (Return medium, w1)
    ∧ get_tasks_by_priority 3 w = (Return high, w1)
    ∧ get_high_priority_tasks w = (Return high, w1)
    ∧ (length low + length medium + length high = length tasks)%nat
    ∧ ∀ t, t ∈ tasks →
        (t ∈ low ∧ (t ∉ medium) ∧ (t ∉ high))
        ∨ ((t ∉ low) ∧ t ∈ medium ∧ (t ∉ high))
        ∨ ((t ∉ low) ∧ (t ∉ medium) ∧ t ∈ high).
Proof.
  intros Hl. pose proof (_load_valid Hl) as Hv.
  assert (∀ p, p ∈ [1; 2; 3] →
    get_tasks_by_priority p w
    = (Return (filter (λ t, eq_int (priority t) p = true) tasks), w1)) as Hp.
  { intros p Hp. unfold get_tasks_by_priority.
    rewrite bool_decide_true by done. cbn [negb].
    by rewrite (bind_return _ _ _ _ _ Hl). }
  eexists _, _, _.
  split; [apply Hp; by apply (bool_decide_unpack _)|].
  split; [apply Hp; by apply (bool_decide_unpack _)|].
  split; [apply Hp; by apply (bool_decide_unpack _)|].
  split; [apply Hp; by apply (bool_decide_unpack _)|].
  split; [by apply filter_priority_length|].
  intros t Ht. rewrite !list_elem_of_filter.
  rewrite Forall_forall in Hv.
  destruct (eq_int_valid t (Hv t Ht))
    as [(-> & -> & ->) | [(-> & -> & ->) | (-> & -> & ->)]];
    intuition congruence.
Qed.

(** X15: the reading operations never write: whatever the file holds and
    whether they return or raise, [get_all_tasks], [get_task],
    [active_tasks_count], [completed_tasks_count], [get_tasks_by_priority]
    and [get_high_priority_tasks] leave the content of the file as it
    was. *)
Theorem reads_keep_storage w :
  storage (get_all_tasks w).2 = storage w
  ∧ (∀ title0, storage (get_task title0 w).2 = storage w)
  ∧ storage (active_tasks_count w).2 = storage w
  ∧ storage (completed_tasks_count w).2 = storage w
  ∧ (∀ p, storage (get_tasks_by_priority p w).2 = storage w)
  ∧ storage (get_high_priority_tasks w).2 = storage w.
Proof.
  assert (storage (_load w).2 = storage w) as Hl.
  { pose proof (_load_spec w) as Hs.
    destruct (_load w) as [[tasks|e] w1]; cbn; tauto. }
  assert (∀ A (k : list Task → M A),
    (∀ tasks w1, (k tasks w1).2 = w1) →
    storage ((_load ≫= k) w).2 = storage w) as Hk.
  { intros A k Hk. rewrite bind_run.
    destruct (_load w) as [[tasks|e] w1]; [|done]. by rewrite Hk. }
  assert (∀ p, storage (get_tasks_by_priority p w).2 = storage w) as Hp.
  { intros p. unfold get_tasks_by_priority.
    destruct (negb _); [done|]. by apply Hk. }
  split; [done|]. split; [intros title0; apply get_task_storage|].
  split; [by apply Hk|]. split; [by apply Hk|]. split; [done|]. apply Hp.
Qed.

(** ** The constructor and the file it finds *)

(** X16: an instance built where no file exists creates a storage that
    behaves as an empty collection: the reads return no task and counts of
    0, and [get_task], [complete_task] and [delete_task] raise the not-found
    error, all without changing the world; and an instance built on the file
    another instance left finds it as it is. *)
Theorem TodoApp_init_new n :
  let w := TodoApp_init None n in
  get_all_tasks w = (Return [], w)
  ∧ active_tasks_count w = (Return 0, w)
  ∧ completed_tasks_count w = (Return (VInt 0), w)
  ∧ (∀ p, p ∈ [1; 2; 3] → get_tasks_by_priority p w = (Return [], w))
  ∧ (∀ title0,
       get_task title0 w = (Raise (TaskNotFoundError title0), w)
       ∧ complete_task title0 w = (Raise (TaskNotFoundError title0), w)
       ∧ delete_task title0 w = (Raise (TaskNotFoundError title0), w))
  ∧ (∀ w', TodoApp_init (Some (storage w')) (clock w') = w').
Proof.
  intros w. assert (_load w = (Return [], w)) as Hl by apply _load_brackets.
  split; [done|].
  split; [by rewrite (active_tasks_count_n_active _ _ _ Hl)|].
  split; [by rewrite (completed_tasks_count_run _ _ _ Hl)|]. split.
  { intros p Hp. unfold get_tasks_by_priority.
    rewrite bool_decide_true by done. cbn [negb].
    by rewrite (bind_return _ _ _ _ _ Hl). }
  split; [|by intros [x m]].
  intros title0. split; [|split].
  - apply (get_task_absent _ _ _ _ Hl). constructor.
  - apply (complete_task_absent _ _ _ _ Hl). constructor.
  - apply (delete_task_absent _ _ _ _ Hl). constructor.
Qed.


(** ** The dataclass *)

(** X18: [__post_init__] accepts exactly the priorities 1, 2 and 3 as ints
    and the boolean true (an int equal to 1), and raises the [ValueError]
    on every other value: another int, false, null, a string, and also the
    floats 1.0, 2.0 and 3.0 although they equal 1, 2 and 3. *)
Theorem post_init_accepts t w :
  let accepted := priority t = VInt 1 ∨ priority t = VInt 2
                  ∨ priority t = VInt 3 ∨ priority t = VBool true in
  (accepted → Task_post_init t w = (Return (), w))
  ∧ (¬ accepted →
     Task_post_init t w
     = (Raise (ValueError "Priority must be 1, 2, or 3"), w))
  ∧ (∀ f, priority t = VFloat f → ¬ accepted).
Proof.
  intros accepted. rewrite Task_post_init_run.
  split; [|split].
  - intros Ha%priority_ok_spec. by rewrite Ha.
  - intros Ha. destruct (priority_ok (priority t)) eqn:Hp; [|done].
    by apply priority_ok_spec in Hp.
  - intros f Hf. unfold accepted. rewrite Hf. by intros [? | [? | [? | ?]]].
Qed.


(** ** A session *)


End MoreProperties.

(** * The operations on concrete files *)

Import Sim.



(** Completing the only task of a file, completing it again, and completing
    a title that is not there. *)
Lemma complete_task_first_match_witness :
  let t := {| title := VStr (lit "a"); done := VBool false; priority := VInt 2;
              created_at := VStr (lit "2024-01-01T00:00:00");
              completed_at := VNone |} in
  let t' := completed t (isoformat_now 0) in
  let w2 := World (saved [t']) 1 in
  _load one_active = (Return [t], one_active)
  ∧ complete_task (lit "a") one_active = (Return t', w2)
  ∧ complete_task (lit "a") w2
    = (Raise (ValueError "Task is already completed"), w2)
  ∧ complete_task (lit "b") one_active
    = (Raise (TaskNotFoundError (lit "b")), one_active).
Proof.
  intros t t' w2.
  assert (_load one_active = (Return [t], one_active)) as Hl by reflexivity.
  destruct (complete_task_first_match one_active [t] one_active (lit "a") Hl)
    as (_ & _ & Hfound).
  destruct (complete_task_first_match one_active [t] one_active (lit "b") Hl)
    as (_ & Habsent & _).
  destruct (Hfound [] t [] eq_refl (Forall_nil_2 _) eq_refl) as [_ Hactive].
  destruct (Hactive eq_refl) as (H1 & _ & _ & _ & H2).
  split; [exact Hl|]. split; [exact H1|]. split; [exact H2|].
  apply Habsent. by repeat constructor.
Defined.

(** Deleting the only task of a file, looking for it afterwards, and
    deleting a title that is not there. *)
Lemma delete_task_first_match_witness :
  let t := {| title := VStr (lit "a"); done := VBool false; priority := VInt 2;
              created_at := VStr (lit "2024-01-01T00:00:00");
              completed_at := VNone |} in
  let w2 := World (saved []) 0 in
  _load one_active = (Return [t], one_active)
  ∧ delete_task (lit "a") one_active = (Return t, w2)
  ∧ _load w2 = (Return [], w2)
  ∧ get_task (lit "a") w2 = (Raise (TaskNotFoundError (lit "a")), w2)
  ∧ delete_task (lit "b") one_active
    = (Raise (TaskNotFoundError (lit "b")), one_active).
Proof.
  intros t w2.
  assert (_load one_active = (Return [t], one_active)) as Hl by reflexivity.
  destruct (delete_task_first_match one_active [t] one_active (lit "a") Hl)
    as (_ & _ & Hfound).
  destruct (delete_task_first_match one_active [t] one_active (lit "b") Hl)
    as (_ & Habsent & _).
  destruct (Hfound [] t [] eq_refl (Forall_nil_2 _) eq_refl) as (H1 & H2 & H3).
  split; [exact Hl|]. split; [exact H1|]. split; [exact H2|].
  split; [exact (H3 (Forall_nil_2 _))|].
  apply Habsent. by repeat constructor.
Defined.




(** A refused priority: the clock has been read, the file is the same. *)
Lemma failed_operation_keeps_storage_witness :
  let w' := World brackets 1 in
  run (Add (lit "a") 5) fresh
  = (Raise (ValueError "Priority must be 1, 2, or 3"), w')
  ∧ storage w' = storage fresh.
Proof.
  intros w'.
  assert (run (Add (lit "a") 5) fresh
          = (Raise (ValueError "Priority must be 1, 2, or 3"), w')) as H
    by reflexivity.
  exact (conj H (failed_operation_keeps_storage _ _ _ _ H)).
Defined.

(** The storage after adding a task and completing it. *)
Lemma reachable_task_inv_witness :
  let w := (complete_task (lit "a") (add_task (lit "a") 2 fresh).2).2 in
  reachable w ∧ ∃ tasks, _load w = (Return tasks, w) ∧ Forall task_inv tasks.
Proof.
  intros w.
  assert (reachable w) as Hr.
  { apply reachable_complete, reachable_add, (reachable_new 0). }
  exact (conj Hr (reachable_task_inv w Hr)).
Defined.


(** The two tasks of priority 3 among three, in their order. *)
Lemma get_tasks_by_priority_filters_witness :
  ∃ a b c, get_all_tasks three_tasks = (Return [a; b; c], three_tasks)
           ∧ get_tasks_by_priority 3 three_tasks = (Return [b; c], three_tasks)
           ∧ [b; c] `sublist_of` [a; b; c].
Proof.
  destruct (get_tasks_by_priority_filters 3 three_tasks) as (_ & _ & H).
  eexists _, _, _.
  assert (3 ∈ [1; 2; 3]) as Hp by by apply (bool_decide_unpack _).
  destruct (H _ _ Hp eq_refl) as (found & H1 & H2 & _).
  assert (found = filter (λ t, eq_int (priority t) 3 = true)
                    (match (get_all_tasks three_tasks).1 with
                     | Return l => l | Raise _ => [] end)) as Hf.
  { destruct (get_tasks_by_priority_filters 3 three_tasks) as (Heq & _).
    rewrite Heq in H1. by injection H1 as <-. }
  vm_compute in Hf. subst found.
  split; [reflexivity|]. split; [exact H1 | exact H2].
Defined.

(** A stored priority of 5 stops every operation that loads the file. *)
Lemma _load_invalid_data_witness :
  json_loads (storage bad_priority)
  = Some (VList [obj [("title", VStr (lit "x")); ("priority", VInt 5)]])
  ∧ ∃ e w', _load bad_priority = (Raise e, w') ∧ construction_error e
      ∧ storage w' = storage bad_priority
      ∧ get_all_tasks bad_priority = (Raise e, w')
      ∧ get_task (lit "x") bad_priority = (Raise e, w')
      ∧ add_task (lit "ok") 1 bad_priority = (Raise e, w').
Proof.
  assert (json_loads (storage bad_priority)
          = Some (VList [obj [("title", VStr (lit "x")); ("priority", VInt 5)]]))
    as Hj by reflexivity.
  split; [exact Hj|].
  pose proof (_load_invalid_data bad_priority _ Hj) as H.
  vm_compute (decodes _) in H.
  destruct H as (e & w' & H1 & H2 & H3 & _ & H4 & _ & H5 & H6 & _).
  exists e, w'.
  assert (valid_title (lit "ok")) as Hv by (by apply (bool_decide_unpack _)).
  exact (conj H1 (conj H2 (conj H3 (conj H4
    (conj (proj1 (H5 _)) (H6 _ 1 Hv)))))).
Defined.

(** C10 fails as stated: an empty object is valid JSON and no list of task
    records, yet [_load] returns the empty list and raises nothing; and a
    record with a title and no other key is loaded, with the defaults, and
    raises nothing either. *)
Lemma _load_silent_on_empty_object :
  json_loads (storage empty_object) = Some (VDict ∅)
  ∧ _load empty_object = (Return [], empty_object)
  ∧ json_loads (storage title_only)
    = Some (VList [obj [("title", VStr (lit "x"))]])
  ∧ ∃ t w', _load title_only = (Return [t], w')
            ∧ title t = VStr (lit "x") ∧ done t = VBool false
            ∧ priority t = VInt 1 ∧ completed_at t = VNone.
Proof.
  split; [reflexivity|]. split; [reflexivity|]. split; [reflexivity|].
  eexists _, _. split; [vm_compute; reflexivity|]. done.
Qed.

(** Deleting a title that is not there. *)
Lemma run_raises_public_error_witness :
  run (Delete (lit "b")) one_active
  = (Raise (TaskNotFoundError (lit "b")), one_active)
  ∧ public_error (TaskNotFoundError (lit "b")).
Proof.
  assert (run (Delete (lit "b")) one_active
          = (Raise (TaskNotFoundError (lit "b")), one_active)) as H
    by reflexivity.
  exact (conj H (run_raises_public_error _ _ _ _ H)).
Defined.

(** The two counts over a file with one active and two completed tasks. *)
Lemma counts_add_up_witness :
  let tasks := [stored "a" false 1 VNone;
                stored "b" true 3 (VStr (lit "2024-01-02T00:00:00"));
                stored "a" true 2 (VStr (lit "2024-01-03T00:00:00"))] in
  get_all_tasks mixed = (Return tasks, mixed) ∧ Forall done_is_bool tasks
  ∧ active_tasks_count mixed = (Return 1, mixed)
  ∧ completed_tasks_count mixed = (Return (VInt 2), mixed).
Proof.
  intros tasks.
  assert (get_all_tasks mixed = (Return tasks, mixed)) as Hl by reflexivity.
  assert (Forall done_is_bool tasks) as Hb
    by (repeat constructor; by eexists).
  destruct (counts_add_up _ _ _ Hl Hb) as (H1 & H2 & _).
  exact (conj Hl (conj Hb (conj H1 H2))).
Defined.

(** One task whose [done] is 5: five tasks are counted completed. *)
Lemma completed_tasks_count_sums_ints_witness :
  let t := {| title := VStr (lit "x"); done := VInt 5; priority := VInt 1;
              created_at := VStr (isoformat_now 0); completed_at := VNone |} in
  let w1 := World (storage done_five) 1 in
  get_all_tasks done_five = (Return [t], w1)
  ∧ Forall (λ t, is_int (done t)) [t]
  ∧ completed_tasks_count done_five = (Return (VInt 5), w1).
Proof.
  intros t w1.
  assert (get_all_tasks done_five = (Return [t], w1)) as Hl by reflexivity.
  assert (Forall (λ t, is_int (done t)) [t]) as Hi by (by repeat constructor).
  exact (conj Hl (conj Hi (completed_tasks_count_sums_ints _ _ _ Hl Hi))).
Defined.

(** One task whose [done] is null: it counts as active, and counting the
    completed tasks raises. *)
Lemma completed_tasks_count_type_error_witness :
  let t := {| title := VStr (lit "x"); done := VNone; priority := VInt 1;
              created_at := VStr (isoformat_now 0); completed_at := VNone |} in
  let w1 := World (storage done_null) 1 in
  get_all_tasks done_null = (Return ([] ++ [t]), w1)
  ∧ not_a_number (done t)
  ∧ completed_tasks_count done_null = (Raise TypeError, w1)
  ∧ active_tasks_count done_null = (Return 1, w1).
Proof.
  intros t w1.
  assert (get_all_tasks done_null = (Return ([] ++ [t]), w1)) as Hl
    by reflexivity.
  assert (not_a_number (done t)) as Hn by exact I.
  destruct (completed_tasks_count_type_error _ _ _ _ _ Hl (Forall_nil_2 _) Hn)
    as [H1 H2].
  exact (conj Hl (conj Hn (conj H1 H2))).
Defined.

(** The counts after adding two tasks and completing one. *)
Lemma reachable_counts_add_up_witness :
  let w := (complete_task (lit "a")
              (add_task (lit "b") 1 (add_task (lit "a") 2 fresh).2).2).2 in
  reachable w
  ∧ ∃ tasks a c,
      get_all_tasks w = (Return tasks, w)
      ∧ active_tasks_count w = (Return a, w)
      ∧ completed_tasks_count w = (Return (VInt c), w)
      ∧ a + c = Z.of_nat (length tasks) ∧ 0 ≤ a ∧ 0 ≤ c.
Proof.
  intros w.
  assert (reachable w) as Hr.
  { apply reachable_complete, reachable_add, reachable_add, (reachable_new 0). }
  exact (conj Hr (reachable_counts_add_up w Hr)).
Defined.

(** The types of the tasks after adding two tasks and completing one. *)
Lemma reachable_well_typed_witness :
  let w := (complete_task (lit "a")
              (add_task (lit "b") 1 (add_task (lit "a") 2 fresh).2).2).2 in
  reachable w
  ∧ ∃ tasks, get_all_tasks w = (Return tasks, w) ∧ Forall well_typed tasks.
Proof.
  intros w.
  assert (reachable w) as Hr.
  { apply reachable_complete, reachable_add, reachable_add, (reachable_new 0). }
  exact (conj Hr (reachable_well_typed w Hr)).
Defined.



(** Deleting "a" from the same file: the first "a" goes. *)
Lemma delete_task_effect_witness :
  let a := stored "a" false 1 VNone in
  let b := stored "b" true 3 (VStr (lit "2024-01-02T00:00:00")) in
  let a' := stored "a" true 2 (VStr (lit "2024-01-03T00:00:00")) in
  let w2 := World (saved [b; a']) 0 in
  get_all_tasks mixed = (Return [a; b; a'], mixed)
  ∧ delete_task (lit "a") mixed = (Return a, w2)
  ∧ ∃ tasks',
      get_all_tasks w2 = (Return tasks', w2)
      ∧ [a; b; a'] ≡ₚ a :: tasks'
      ∧ tasks' `sublist_of` [a; b; a']
      ∧ others (lit "a") tasks' = [b]
      ∧ n_active tasks' = 0.
Proof.
  intros a b a' w2.
  assert (get_all_tasks mixed = (Return [a; b; a'], mixed)) as Hl
    by reflexivity.
  assert (delete_task (lit "a") mixed = (Return a, w2)) as Hc by reflexivity.
  destruct (delete_task_effect _ _ _ _ _ _ Hl Hc)
    as (tasks' & H1 & H2 & H3 & _ & H4 & H5).
  split; [exact Hl|]. split; [exact Hc|]. exists tasks'.
  exact (conj H1 (conj H2 (conj H3 (conj H4 H5)))).
Defined.


(** A file holding a record with a title only: once a task has been added
    the file holds the two tasks with all their fields. *)
Lemma successful_mutation_canonical_witness :
  let x := new_task (lit "x") 1 (isoformat_now 0) in
  let t := new_task (lit "d") 2 (isoformat_now 1) in
  let w' := World (saved [x; t]) 2 in
  mutation (Add (lit "d") 2)
  ∧ run (Add (lit "d") 2) title_only = (Return t, w')
  ∧ ∃ tasks', storage w' = saved tasks' ∧ Forall Task_valid tasks'
              ∧ get_all_tasks w' = (Return tasks', w').
Proof.
  intros x t w'.
  assert (run (Add (lit "d") 2) title_only = (Return t, w')) as Hr
    by reflexivity.
  exact (conj I (conj Hr
    (successful_mutation_canonical (Add (lit "d") 2) _ _ _ I Hr))).
Defined.

(** Of the two tasks titled "a", [get_task] returns the first. *)
Lemma get_task_first_match_witness :
  let a := stored "a" false 1 VNone in
  let b := stored "b" true 3 (VStr (lit "2024-01-02T00:00:00")) in
  let a' := stored "a" true 2 (VStr (lit "2024-01-03T00:00:00")) in
  get_all_tasks mixed = (Return [a; b; a'], mixed)
  ∧ get_task (lit "a") mixed = (Return a, mixed)
  ∧ get_task (lit "c") mixed = (Raise (TaskNotFoundError (lit "c")), mixed).
Proof.
  intros a b a'.
  assert (get_all_tasks mixed = (Return [a; b; a'], mixed)) as Hl
    by reflexivity.
  destruct (get_task_first_match _ _ _ (lit "a") Hl) as [_ H1].
  destruct (get_task_first_match _ _ _ (lit "c") Hl) as [H2 _].
  split; [exact Hl|]. split.
  - apply (H1 [] a [b; a'] eq_refl); [constructor | done].
  - apply H2. by repeat constructor.
Defined.

(** Three tasks of priorities 1, 3 and 3. *)
Lemma priorities_partition_witness :
  let a := stored "a" false 1 VNone in
  let b := stored "b" false 3 VNone in
  let c := stored "c" false 3 VNone in
  get_all_tasks three_tasks = (Return [a; b; c], three_tasks)
  ∧ ∃ low medium high,
      get_tasks_by_priority 1 three_tasks = (Return low, three_tasks)
      ∧ get_tasks_by_priority 2 three_tasks = (Return medium, three_tasks)
      ∧ get_high_priority_tasks three_tasks = (Return high, three_tasks)
      ∧ (length low + length medium + length high = 3)%nat.
Proof.
  intros a b c.
  assert (get_all_tasks three_tasks = (Return [a; b; c], three_tasks)) as Hl
    by reflexivity.
  destruct (priorities_partition _ _ _ Hl)
    as (low & medium & high & H1 & H2 & _ & H3 & H4 & _).
  split; [exact Hl|]. exists low, medium, high.
  exact (conj H1 (conj H2 (conj H3 H4))).
Defined.


(** The priorities true and 3 are accepted; 1.0, 0 and null are refused. *)
Lemma post_init_accepts_witness :
  let with_priority v :=
    {| title := VStr (lit "x"); done := VBool false; priority := v;
       created_at := VNone; completed_at := VNone |} in
  let refused := (Raise (ValueError "Priority must be 1, 2, or 3"), fresh) in
  Task_post_init (with_priority (VBool true)) fresh = (Return (), fresh)
  ∧ Task_post_init (with_priority (VInt 3)) fresh = (Return (), fresh)
  ∧ Task_post_init (with_priority (VFloat (S754_finite false 1 0))) fresh
    = refused
  ∧ float_eq_int (S754_finite false 1 0) 1 = true
  ∧ Task_post_init (with_priority (VInt 0)) fresh = refused
  ∧ Task_post_init (with_priority VNone) fresh = refused.
Proof.
  intros with_priority refused.
  split; [apply post_init_accepts; by do 3 right|].
  split; [apply post_init_accepts; by do 2 right; left|].
  split.
  { destruct (post_init_accepts
      (with_priority (VFloat (S754_finite false 1 0))) fresh)
      as (_ & H & Hf). apply H, (Hf _ eq_refl). }
  split; [reflexivity|]. split.
  - apply post_init_accepts. by intros [? | [? | [? | ?]]].
  - apply post_init_accepts. by intros [? | [? | [? | ?]]].
Defined.


